(** * BangoCat DMG background generator: a model of
      [Assets/DMG/create_background.py] and its properties.

    The script is embedded shallowly.  Python integers are [Z]; the two
    float expressions of the script ([15 * y / height] and [(i / 20) ** 2])
    are evaluated over the rationals [Q] and truncated by [py_int], which
    agrees with binary64 evaluation on the ranges the script uses (the exact
    values are either integers or at least 1/80 away from one; the lemmas
    [gradient_value_float_agrees] and [tail_y_float_agrees] check it).
    Effects (the canvas, standard output, the file system, exceptions) are
    threaded through a small state-and-exception monad [M]. *)

From Stdlib Require Import ZArith QArith Qabs String Ascii List Lia.
From Stdlib Require Import PrimFloat SpecFloat FloatOps Uint63.
From stdpp Require Import gmap strings list.

Open Scope Z_scope.

(* ===================================================================== *)
(** ** Python values used by the script *)
(* ===================================================================== *)

(** [int(x)] on a float: truncation toward zero. *)
Definition py_int (q : Q) : Z := Z.quot (Qnum q) (Z.pos (Qden q)).

(** [range(n)] *)
Definition py_range (n : Z) : list Z := map Z.of_nat (seq 0 (Z.to_nat n)).

(** Exceptions the script can meet.  [OSError] stands for any operating
    system error without a more specific class; [OtherException] for any
    other subclass of [Exception] (ValueError, MemoryError, ...). *)
Inductive exn :=
  | ImportError
  | NameError (name : string)
  | IndexError
  | SystemExit (code : Z)
  | FileNotFoundError
  | FileExistsError
  | NotADirectoryError
  | IsADirectoryError
  | PermissionError
  | OSError
  | RecursionError
  | OtherException.

(** [isinstance(e, OSError)]; [IOError] is an alias of [OSError]. *)
Definition is_OSError (e : exn) : bool :=
  match e with
  | FileNotFoundError | FileExistsError | NotADirectoryError
  | IsADirectoryError | PermissionError | OSError => true
  | _ => false
  end.

(** [isinstance(e, Exception)]: everything but [SystemExit], which derives
    from [BaseException] directly. *)
Definition is_Exception (e : exn) : bool :=
  match e with
  | SystemExit _ => false
  | _ => true
  end.

Definition is_FileExistsError (e : exn) : bool :=
  match e with
  | FileExistsError => true
  | _ => false
  end.

(* ===================================================================== *)
(** ** Drawing primitives and the canvas *)
(* ===================================================================== *)

Definition color : Type := Z * Z * Z.
Definition point : Type := Z * Z.
Definition bbox : Type := Z * Z * Z * Z.

(** A font handle: a scalable font loaded from a file at a point size, or
    the built-in font returned by [ImageFont.load_default()]. *)
Inductive font :=
  | TrueType (path : string) (size : Z)
  | DefaultFont.

(** The calls made on the [ImageDraw] object, with their arguments. *)
Inductive draw_op :=
  | Line (xy : list point) (fill : color) (width : Z)
  | Polygon (xy : list point) (fill : color)
  | Ellipse (box : bbox) (fill : color)
  | Text (xy : point) (text : string) (fill : color) (fnt : option font).

(** An image: its size, the colour it was allocated with, and the drawing
    calls applied to it, oldest first. *)
Record image := Image {
  img_size : Z * Z;
  img_fill : string;
  img_ops : list draw_op
}.

(** The pixel coordinates passed to a drawing call. *)
Definition coords (op : draw_op) : list point :=
  match op with
  | Line xy _ _ => xy
  | Polygon xy _ => xy
  | Ellipse (x0, y0, x1, y1) _ => [(x0, y0); (x1, y1)]
  | Text xy _ _ _ => [xy]
  end.

(** Pixels covered by a horizontal segment from [(x0, y)] to [(x1, y)]. *)
Definition on_hline (xy : list point) (p : point) : Prop :=
  match xy with
  | [(x0, y0); (x1, y1)] => y0 = y1 /\ p.2 = y0 /\ x0 <= p.1 <= x1
  | _ => False
  end.

(* ===================================================================== *)
(** ** [os.path]: string functions of [posixpath] *)
(* ===================================================================== *)

Definition sep : ascii := "/"%char.

(** [s.rfind(c)], as [None] for -1. *)
Fixpoint rfind (c : ascii) (s : string) : option nat :=
  match s with
  | EmptyString => None
  | String a s' =>
      match rfind c s' with
      | Some i => Some (S i)
      | None => if Ascii.eqb a c then Some O else None
      end
  end.

(** [s == c * len(s)] *)
Fixpoint all_char (c : ascii) (s : string) : bool :=
  match s with
  | EmptyString => true
  | String a s' => Ascii.eqb a c && all_char c s'
  end.

(** [s.rstrip(c)] *)
Fixpoint rstrip (c : ascii) (s : string) : string :=
  match s with
  | EmptyString => EmptyString
  | String a s' =>
      if Ascii.eqb a c && all_char c s' then EmptyString
      else String a (rstrip c s')
  end.

Definition is_empty (s : string) : bool :=
  match s with
  | EmptyString => true
  | String _ _ => false
  end.

(** [posixpath.split(p)]:
<<
    i = p.rfind(sep) + 1
    head, tail = p[:i], p[i:]
    if head and head != sep*len(head):
        head = head.rstrip(sep)
    return head, tail
>> *)
Definition path_split (p : string) : string * string :=
  let i := match rfind sep p with Some k => S k | None => O end in
  let head := substring 0 i p in
  let tail := substring i (String.length p - i) p in
  let head :=
    if negb (is_empty head) && negb (all_char sep head)
    then rstrip sep head else head in
  (head, tail).

(** [posixpath.dirname(p)]: the head of [split]. *)
Definition dirname (p : string) : string :=
  let i := match rfind sep p with Some k => S k | None => O end in
  let head := substring 0 i p in
  if negb (is_empty head) && negb (all_char sep head)
  then rstrip sep head else head.

(* ===================================================================== *)
(** ** The file system *)
(* ===================================================================== *)

(** File contents: a PNG encoding of an image (what [image.save] writes;
    the encoder is a function of the image, it embeds no time stamp), or
    anything else. *)
Inductive file_data :=
  | PNG (img : image)
  | Blob.

Inductive node :=
  | Dir
  | File (data : file_data).

(** A directory tree without symbolic links or permissions: nodes are
    keyed by their absolute component list, the root being []. *)
Record FS := mkFS {
  cwd : list string;
  nodes : gmap (list string) node
}.

Definition node_at (fs : FS) (c : list string) : option node :=
  match c with
  | [] => Some Dir
  | _ => nodes fs !! c
  end.

(** [s.split("/")] *)
Fixpoint split_sep (s : string) : list string :=
  match s with
  | EmptyString => [EmptyString]
  | String a s' =>
      if Ascii.eqb a sep then EmptyString :: split_sep s'
      else match split_sep s' with
           | [] => [String a EmptyString]
           | w :: ws => String a w :: ws
           end
  end.

Definition components (s : string) : list string :=
  List.filter (fun c => negb (is_empty c)) (split_sep s).

Definition is_absolute (s : string) : bool :=
  match s with
  | String a _ => Ascii.eqb a sep
  | EmptyString => false
  end.

Fixpoint ends_with_sep (s : string) : bool :=
  match s with
  | EmptyString => false
  | String a EmptyString => Ascii.eqb a sep
  | String _ s' => ends_with_sep s'
  end.

Definition step (cur : list string) (c : string) : list string :=
  if String.eqb c "." then cur
  else if String.eqb c ".." then removelast cur
  else cur ++ [c].

(** Path resolution: every component is looked up in a directory that
    exists; the node the last component names need not exist. *)
Fixpoint walk (fs : FS) (cur : list string) (comps : list string)
  : exn + list string :=
  match comps with
  | [] => inr cur
  | c :: rest =>
      match node_at fs cur with
      | Some Dir => walk fs (step cur c) rest
      | Some (File _) => inl NotADirectoryError
      | None => inl FileNotFoundError
      end
  end.

(** The empty path name does not resolve (ENOENT). *)
Definition lookup_path (s : string) (fs : FS) : exn + list string :=
  if is_empty s then inl FileNotFoundError
  else walk fs (if is_absolute s then [] else cwd fs) (components s).

(** [os.path.exists] and [os.path.isdir] never raise. *)
Definition path_exists (s : string) (fs : FS) : bool :=
  match lookup_path s fs with
  | inr c =>
      match node_at fs c with
      | Some Dir => true
      | Some (File _) => negb (ends_with_sep s)
      | None => false
      end
  | inl _ => false
  end.

Definition path_isdir (s : string) (fs : FS) : bool :=
  match lookup_path s fs with
  | inr c =>
      match node_at fs c with
      | Some Dir => true
      | _ => false
      end
  | inl _ => false
  end.

(** [os.mkdir(s)] *)
Definition mkdir (s : string) (fs : FS) : exn + FS :=
  match lookup_path s fs with
  | inl e => inl e
  | inr c =>
      match node_at fs c with
      | Some _ => inl FileExistsError
      | None => inr (mkFS (cwd fs) (<[c := Dir]> (nodes fs)))
      end
  end.

(** Opening [s] for writing and storing [data] in it. *)
Definition write_file (s : string) (data : file_data) (fs : FS) : exn + FS :=
  match lookup_path s fs with
  | inl e => inl e
  | inr c =>
      if ends_with_sep s then inl IsADirectoryError
      else match node_at fs c with
           | Some Dir => inl IsADirectoryError
           | _ => inr (mkFS (cwd fs) (<[c := File data]> (nodes fs)))
           end
  end.

Definition read_file (s : string) (fs : FS) : option file_data :=
  match lookup_path s fs with
  | inr c =>
      match node_at fs c with
      | Some (File d) => if ends_with_sep s then None else Some d
      | _ => None
      end
  | inl _ => None
  end.

(** [os.makedirs(name, exist_ok=True)]:
<<
    head, tail = path.split(name)
    if not tail:
        head, tail = path.split(head)
    if head and tail and not path.exists(head):
        try:
            makedirs(head, exist_ok=exist_ok)
        except FileExistsError:
            pass
        cdir = curdir
        if tail == cdir:
            return
    try:
        mkdir(name, mode)
    except OSError:
        if not exist_ok or not path.isdir(name):
            raise
>>
    The recursion is on a strictly shorter string; [fuel] bounds its depth.
    The interpreter's own bound on nested calls (a [RecursionError] at
    about 1000 frames) is not part of the model: the model describes
    [os.makedirs] for names with fewer missing ancestors than that, as the
    names of [portable_path] below are. *)
Definition mkdir_exist_ok (name : string) (fs : FS) : exn + FS :=
  match mkdir name fs with
  | inr fs' => inr fs'
  | inl e =>
      if is_OSError e
      then (if path_isdir name fs then inr fs else inl e)
      else inl e
  end.

Fixpoint makedirs_fuel (fuel : nat) (name : string) (fs : FS) : exn + FS :=
  match fuel with
  | O => inl RecursionError
  | S fuel' =>
      let '(head, tail) := path_split name in
      let '(head, tail) :=
        if is_empty tail then path_split head else (head, tail) in
      if negb (is_empty head) && negb (is_empty tail)
         && negb (path_exists head fs)
      then
        match
          match makedirs_fuel fuel' head fs with
          | inr fs' => inr fs'
          | inl e => if is_FileExistsError e then inr fs else inl e
          end
        with
        | inl e => inl e
        | inr fs' =>
            if String.eqb tail "." then inr fs'
            else mkdir_exist_ok name fs'
        end
      else mkdir_exist_ok name fs
  end.

Definition makedirs (name : string) (fs : FS) : exn + FS :=
  makedirs_fuel (S (String.length name)) name fs.

(* ===================================================================== *)
(** ** The environment and the process state *)
(* ===================================================================== *)

(** How a call [ImageFont.truetype(path, size)] ends: it returns a handle,
    raises an [OSError] (unreadable file, unknown format, size not
    available), or raises some other [Exception]. *)
Inductive load_outcome :=
  | Loaded
  | LoadOSError
  | LoadOtherError.

(** What the script observes of its surroundings besides the file system:
    which modules can be imported, how font loading ends, and what
    [ImageDraw.textbbox((0, 0), text, font=f)] measures ([f = None] is
    Pillow's own default font). *)
Record Env := mkEnv {
  module_available : string -> bool;
  font_load : string -> Z -> load_outcome;
  text_bbox : option font -> string -> bbox
}.

(** The state of a run: the file system, the lines printed on standard
    output, and the image allocated by [Image.new], if any. *)
Record world := mkWorld {
  w_fs : FS;
  w_stdout : list string;
  w_image : option image
}.

Inductive result (A : Type) :=
  | Ret (a : A)
  | Raise (e : exn).
Arguments Ret {A} a.
Arguments Raise {A} e.

Definition M (A : Type) : Type := world -> result A * world.

Definition ret {A} (a : A) : M A := fun w => (Ret a, w).

Definition raise {A} (e : exn) : M A := fun w => (Raise e, w).

Definition bind {A B} (m : M A) (k : A -> M B) : M B :=
  fun w =>
    match m w with
    | (Ret a, w') => k a w'
    | (Raise e, w') => (Raise e, w')
    end.

(** [try: m  except <handles>: h] *)
Definition try_except {A} (m : M A) (handles : exn -> bool) (h : M A) : M A :=
  fun w =>
    match m w with
    | (Ret a, w') => (Ret a, w')
    | (Raise e, w') => if handles e then h w' else (Raise e, w')
    end.

Declare Scope py_scope.
Delimit Scope py_scope with py.
Notation "x <- m ;; k" := (bind m (fun x => k))
  (at level 100, m at next level, right associativity) : py_scope.
Notation "m ;; k" := (bind m (fun _ => k))
  (at level 100, right associativity) : py_scope.
Open Scope py_scope.

(** [for x in l: body(x)], for a body without [break] or [continue]. *)
Fixpoint for_each {A} (l : list A) (body : A -> M unit) : M unit :=
  match l with
  | [] => ret tt
  | x :: l' => body x ;; for_each l' body
  end.

(** [print(line)] on a standard output that accepts the line: an output
    stream that is closed, or whose encoding cannot represent the text, is
    not part of the model. *)
Definition print (line : string) : M unit :=
  fun w => (Ret tt, mkWorld (w_fs w) (w_stdout w ++ [line]) (w_image w)).

(** [sys.exit(code)] *)
Definition sys_exit {A} (code : Z) : M A := raise (SystemExit code).

(** A file-system call: its error is raised, its new state installed. *)
Definition os_call (f : FS -> exn + FS) : M unit :=
  fun w =>
    match f (w_fs w) with
    | inr fs' => (Ret tt, mkWorld fs' (w_stdout w) (w_image w))
    | inl e => (Raise e, w)
    end.

Definition os_path_exists (p : string) : M bool :=
  fun w => (Ret (path_exists p (w_fs w)), w).

(** [Image.new("RGB", size, fill)] *)
Definition Image_new (size : Z * Z) (fill : string) : M unit :=
  fun w => (Ret tt, mkWorld (w_fs w) (w_stdout w) (Some (Image size fill []))).

(** A call on the [ImageDraw] object of the image. *)
Definition draw (op : draw_op) : M unit :=
  fun w =>
    (Ret tt,
     mkWorld (w_fs w) (w_stdout w)
       (match w_image w with
        | Some im => Some (Image (img_size im) (img_fill im) (img_ops im ++ [op]))
        | None => None
        end)).

(** [image.save(path, "PNG", optimize=True)] *)
Definition Image_save (path : string) : M unit :=
  fun w =>
    match w_image w with
    | Some im => os_call (write_file path (PNG im)) w
    | None => (Raise (NameError "image"), w)
    end.

(** [ImageFont.truetype(path, size)]: the outcome is the one the
    environment gives for the font files as they are when the run starts;
    a run that writes over a candidate font file is outside what
    [font_load] describes. *)
Definition truetype (env : Env) (path : string) (size : Z) : M font :=
  match font_load env path size with
  | Loaded => ret (TrueType path size)
  | LoadOSError => raise OSError
  | LoadOtherError => raise OtherException
  end.

(** [ImageFont.load_default()] *)
Definition load_default : M font := ret DefaultFont.

(* ===================================================================== *)
(** ** [create_dmg_background] *)
(* ===================================================================== *)

Definition font_paths : list string :=
  [ "/System/Library/Fonts/Helvetica.ttc";
    "/System/Library/Fonts/Arial.ttf";
    "/Library/Fonts/Arial.ttf" ]%string.

(** [gradient_value = int(240 + (15 * y / height))] *)
Definition gradient_value (y height : Z) : Z :=
  py_int (240 + inject_Z (15 * y) / inject_Z height)%Q.

(** [tail_y = cat_y + 10 + int(5 * (i / 20) ** 2)] *)
Definition tail_y (cat_y i : Z) : Z :=
  cat_y + 10 + py_int (5 * (inject_Z i / 20) ^ 2)%Q.

(** The same two expressions evaluated in binary64 arithmetic, as Python
    evaluates them ([x ** 2] taken as [x * x]); [float_int] is [int(x)] on
    a float. *)
Definition float_of_int (n : Z) : float := PrimFloat.of_uint63 (Uint63.of_Z n).

Definition float_int (f : float) : Z :=
  match Prim2SF f with
  | S754_finite s m e =>
      let v := if 0 <=? e then Z.pos m * 2 ^ e else Z.pos m / 2 ^ (- e) in
      if s then - v else v
  | _ => 0
  end.

Definition gradient_value_float (y height : Z) : Z :=
  float_int
    (float_of_int 240 + float_of_int (15 * y) / float_of_int height)%float.

Definition tail_y_float (cat_y i : Z) : Z :=
  let x := (float_of_int i / float_of_int 20)%float in
  cat_y + 10 + float_int (float_of_int 5 * (x * x))%float.

(** The font-probing loop.  The pair is the current value of the local
    variables [title_font] and [instruction_font]:
<<
    for font_path in font_paths:
        if os.path.exists(font_path):
            try:
                title_font = ImageFont.truetype(font_path, 24)
                instruction_font = ImageFont.truetype(font_path, 14)
                break
            except (OSError, IOError):
                continue
>>
    An [OSError] raised by the second load leaves [title_font] rebound. *)
Fixpoint probe_fonts (env : Env) (paths : list string)
    (fonts : option font * option font) : M (option font * option font) :=
  match paths with
  | [] => ret fonts
  | font_path :: rest =>
      found <- os_path_exists font_path ;;
      if found then
        fun w =>
          match truetype env font_path 24 w with
          | (Ret tf, w1) =>
              match truetype env font_path 14 w1 with
              | (Ret f, w2) => (Ret (Some tf, Some f), w2)
              | (Raise e, w2) =>
                  if is_OSError e
                  then probe_fonts env rest (Some tf, snd fonts) w2
                  else (Raise e, w2)
              end
          | (Raise e, w1) =>
              if is_OSError e then probe_fonts env rest fonts w1
              else (Raise e, w1)
          end
      else probe_fonts env rest fonts
  end.

(** The font-resolution block: the loop, the [if not title_font] fallback,
    and the enclosing [try ... except Exception]. *)
Definition resolve_fonts (env : Env) : M (option font * option font) :=
  try_except
    (fonts <- probe_fonts env font_paths (None, None) ;;
     let '(title_font, instruction_font) := fonts in
     match title_font with
     | None =>
         title_font <- load_default ;;
         instruction_font <- load_default ;;
         ret (Some title_font, Some instruction_font)
     | Some _ => ret (title_font, instruction_font)
     end)
    is_Exception
    (title_font <- load_default ;;
     instruction_font <- load_default ;;
     ret (Some title_font, Some instruction_font)).

(** [bbox[2] - bbox[0]] *)
Definition bbox_width (b : bbox) : Z :=
  match b with
  | (x0, _, x1, _) => x1 - x0
  end.

(** The prefixes of the two confirmation lines (the characters before
    the words are those of the source file). *)
Definition created_prefix : string := "âœ… DMG background created: ".
Definition done_prefix : string :=
  "ðŸŽ¨ Professional DMG background created at: ".

Definition default_fonts : option font * option font :=
  (Some DefaultFont, Some DefaultFont).

Definition title_text : string := "BangoCat for macOS".
Definition instruction_text : string :=
  "Drag BangoCat.app to the Applications folder to install".
Definition version_text : string := "v1.5.2".

Definition create_dmg_background (env : Env) (output_path : string)
    (width height : Z) : M unit :=
  Image_new (width, height) "white" ;;
  for_each (py_range height) (fun y =>
    let gradient_value := gradient_value y height in
    let color := (gradient_value - 5, gradient_value, gradient_value) in
    draw (Line [(0, y); (width, y)] color 0)) ;;
  let text_color := (80, 80, 80) in
  let accent_color := (70, 130, 180) in
  fonts <- resolve_fonts env ;;
  let '(title_font, instruction_font) := fonts in
  let title_bbox := text_bbox env title_font title_text in
  let title_width := bbox_width title_bbox in
  let title_x := (width - title_width) / 2 in
  draw (Text (title_x, 30) title_text accent_color title_font) ;;
  let instruction_bbox := text_bbox env instruction_font instruction_text in
  let instruction_width := bbox_width instruction_bbox in
  let instruction_x := (width - instruction_width) / 2 in
  draw (Text (instruction_x, 65) instruction_text text_color instruction_font) ;;
  let arrow_color := (150, 150, 150) in
  let arrow_start_x := 320 in
  let arrow_start_y := 140 in
  let arrow_end_x := 370 in
  let arrow_end_y := 140 in
  draw (Line [(arrow_start_x, arrow_start_y); (arrow_end_x, arrow_end_y)]
          arrow_color 2) ;;
  draw (Polygon [ (arrow_end_x, arrow_end_y);
                  (arrow_end_x - 8, arrow_end_y - 4);
                  (arrow_end_x - 8, arrow_end_y + 4) ] arrow_color) ;;
  let cat_color := (200, 200, 200) in
  let cat_x := 50 in
  let cat_y := 200 in
  draw (Ellipse (cat_x, cat_y, cat_x + 40, cat_y + 25) cat_color) ;;
  draw (Ellipse (cat_x + 35, cat_y - 15, cat_x + 55, cat_y + 5) cat_color) ;;
  draw (Polygon [ (cat_x + 38, cat_y - 15); (cat_x + 42, cat_y - 25);
                  (cat_x + 46, cat_y - 15) ] cat_color) ;;
  draw (Polygon [ (cat_x + 47, cat_y - 15); (cat_x + 51, cat_y - 25);
                  (cat_x + 55, cat_y - 15) ] cat_color) ;;
  for_each (py_range 20) (fun i =>
    let tail_x := cat_x - 5 + i in
    let tail_y := tail_y cat_y i in
    draw (Ellipse (tail_x, tail_y, tail_x + 4, tail_y + 8) cat_color)) ;;
  draw (Text (width - 60, height - 25) version_text (180, 180, 180)
          instruction_font) ;;
  Image_save output_path ;;
  print (created_prefix +:+ output_path).

(* ===================================================================== *)
(** ** [main] and the module body *)
(* ===================================================================== *)

Definition usage : string :=
  "Usage: python3 create_background.py <output_path>".

(** [sys.argv[i]] *)
Definition argv_get (argv : list string) (i : nat) : M string :=
  match nth_error argv i with
  | Some a => ret a
  | None => raise IndexError
  end.

Definition main (env : Env) (argv : list string) : M unit :=
  (if negb (Nat.eqb (List.length argv) 2)
   then print usage ;; sys_exit 1
   else ret tt) ;;
  output_path <- argv_get argv 1 ;;
  os_call (makedirs (dirname output_path)) ;;
  create_dmg_background env output_path 540 300 ;;
  print (done_prefix +:+ output_path).

(** The guarded imports at the top of the module, in order, with the names
    each one binds. *)
Definition import_block : list (string * list string) :=
  [ ("PIL", ["Image"; "ImageDraw"; "ImageFont"]);
    ("sys", ["sys"]);
    ("os", ["os"]) ]%string.

Definition pil_diagnostic : string :=
  "PIL (Pillow) not available. Install with: pip install Pillow".

(** Runs the import statements until one raises [ImportError]; returns the
    names bound so far and whether all succeeded. *)
Fixpoint run_imports (avail : string -> bool)
    (stmts : list (string * list string)) (globals : list string)
  : list string * bool :=
  match stmts with
  | [] => (globals, true)
  | (m, names) :: rest =>
      if avail m then run_imports avail rest (globals ++ names)
      else (globals, false)
  end.

(** Evaluating the global name [name]. *)
Definition global_name (globals : list string) (name : string) : M unit :=
  if existsb (String.eqb name) globals then ret tt
  else raise (NameError name).

(** [try: <imports>  except ImportError: print(...); sys.exit(1)] *)
Definition import_guard (env : Env) : M unit :=
  let '(globals, ok) := run_imports (module_available env) import_block [] in
  if ok then ret tt
  else print pil_diagnostic ;;
       global_name globals "sys" ;;
       sys_exit 1.

(** The module run as [__main__]. *)
Definition script (env : Env) (argv : list string) : M unit :=
  import_guard env ;;
  main env argv.

(** How the process ends: [sys.exit(n)] gives status [n], an exception that
    reaches the top level gives a traceback and status 1, falling off the
    end of the module gives status 0. *)
Definition exit_status (r : result unit) : Z :=
  match r with
  | Ret _ => 0
  | Raise (SystemExit n) => n
  | Raise _ => 1
  end.

Definition initial_world (fs : FS) : world := mkWorld fs [] None.

Definition run (env : Env) (argv : list string) (fs : FS)
  : result unit * world :=
  script env argv (initial_world fs).

(* ===================================================================== *)
(** ** Observations used in the statements *)
(* ===================================================================== *)

(** The image as [create_dmg_background] leaves it on the default canvas,
    and the drawing calls made on it. *)
Definition composed_image (env : Env) (output_path : string) (w : world)
  : option image :=
  w_image (create_dmg_background env output_path 540 300 w).2.

Definition drawn (env : Env) (output_path : string) (w : world)
  : list draw_op :=
  match composed_image env output_path w with
  | Some im => img_ops im
  | None => []
  end.

(** The font handles the resolution block yields in a file system. *)
Definition selected_fonts (env : Env) (fs : FS) : option font * option font :=
  match resolve_fonts env (initial_world fs) with
  | (Ret fonts, _) => fonts
  | (Raise _, _) => (None, None)
  end.

Definition in_canvas (width height : Z) (p : point) : Prop :=
  0 <= p.1 < width /\ 0 <= p.2 < height.

(** Whether a path can be opened for writing. *)
Definition writable (p : string) (fs : FS) : bool :=
  match write_file p Blob fs with
  | inr _ => true
  | inl _ => false
  end.

(** All modules of the import block can be imported. *)
Definition imports_available (env : Env) : bool :=
  forallb (fun stmt => module_available env stmt.1) import_block.

(** The drawing calls of [create_dmg_background], pass by pass, as lists;
    [create_dmg_background_run] below shows that the function makes
    exactly these calls. *)
Definition gradient_line (width height y : Z) : draw_op :=
  let g := gradient_value y height in
  Line [(0, y); (width, y)] (g - 5, g, g) 0.

Definition tail_ellipse (i : Z) : draw_op :=
  Ellipse (45 + i, tail_y 200 i, 45 + i + 4, tail_y 200 i + 8) (200, 200, 200).

Definition overlay (env : Env) (fonts : option font * option font)
    (width height : Z) : list draw_op :=
  [ Text ((width - bbox_width (text_bbox env fonts.1 title_text)) / 2, 30)
      title_text (70, 130, 180) fonts.1;
    Text ((width - bbox_width (text_bbox env fonts.2 instruction_text)) / 2, 65)
      instruction_text (80, 80, 80) fonts.2;
    Line [(320, 140); (370, 140)] (150, 150, 150) 2;
    Polygon [(370, 140); (362, 136); (362, 144)] (150, 150, 150);
    Ellipse (50, 200, 90, 225) (200, 200, 200);
    Ellipse (85, 185, 105, 205) (200, 200, 200);
    Polygon [(88, 185); (92, 175); (96, 185)] (200, 200, 200);
    Polygon [(97, 185); (101, 175); (105, 185)] (200, 200, 200) ]
  ++ map tail_ellipse (py_range 20)
  ++ [ Text (width - 60, height - 25) version_text (180, 180, 180) fonts.2 ].

Definition canvas (env : Env) (fs : FS) (width height : Z) : image :=
  Image (width, height) "white"
    (map (gradient_line width height) (py_range height)
     ++ overlay env (selected_fonts env fs) width height).

Definition paint (im : image) (ops : list draw_op) : image :=
  Image (img_size im) (img_fill im) (img_ops im ++ ops).

(** A candidate the probing loop passes over without rebinding a font
    variable: the file does not exist, or loading it at size 24 raises an
    [OSError]. *)
Definition skipped (env : Env) (fs : FS) (p : string) : bool :=
  negb (path_exists p fs)
  || match font_load env p 24 with
     | LoadOSError => true
     | _ => false
     end.

(** Font selection as the specification words it: the first candidate
    that exists and loads at both sizes serves both handles; without one,
    the default font does. *)
Definition loads_at_both_sizes (env : Env) (fs : FS) (p : string) : bool :=
  path_exists p fs
  && match font_load env p 24, font_load env p 14 with
     | Loaded, Loaded => true
     | _, _ => false
     end.

Definition spec_selected_fonts (env : Env) (fs : FS)
  : option font * option font :=
  match List.find (loads_at_both_sizes env fs) font_paths with
  | Some p => (Some (TrueType p 24), Some (TrueType p 14))
  | None => default_fonts
  end.

(* ===================================================================== *)
(** ** Sample environments *)
(* ===================================================================== *)

(** A file system holding only the working directory [/home]. *)
Definition fs_home : FS :=
  mkFS ["home"] (<[ ["home"] := Dir ]> ∅).

(** A file system with the first two candidate fonts installed. *)
Definition fs_fonts : FS :=
  mkFS ["home"]
    (<[ ["home"] := Dir ]>
     (<[ ["System"] := Dir ]>
      (<[ ["System"; "Library"] := Dir ]>
       (<[ ["System"; "Library"; "Fonts"] := Dir ]>
        (<[ ["System"; "Library"; "Fonts"; "Helvetica.ttc"] := File Blob ]>
         (<[ ["System"; "Library"; "Fonts"; "Arial.ttf"] := File Blob ]> ∅)))))).

(** A fixed-pitch measurement: 8 pixels a character, 16 pixels high. *)
Definition mono_bbox (f : option font) (s : string) : bbox :=
  (0, 0, 8 * Z.of_nat (String.length s), 16).

(** Every module imports and every font file loads. *)
Definition env_plain : Env :=
  mkEnv (fun _ => true) (fun _ _ => Loaded) mono_bbox.

(** Pillow is not installed. *)
Definition env_no_pil : Env :=
  mkEnv (fun m => negb (String.eqb m "PIL")) (fun _ _ => Loaded) mono_bbox.

(** Loading Helvetica raises an exception that is not an [OSError]. *)
Definition env_helvetica_error : Env :=
  mkEnv (fun _ => true)
    (fun p _ =>
       if String.eqb p "/System/Library/Fonts/Helvetica.ttc"
       then LoadOtherError else Loaded)
    mono_bbox.

(** The only font file that loads is Helvetica, and only at size 24. *)
Definition env_helvetica_partial : Env :=
  mkEnv (fun _ => true)
    (fun p size =>
       if String.eqb p "/System/Library/Fonts/Helvetica.ttc" && (size =? 24)
       then Loaded else LoadOSError)
    mono_bbox.

(* ===================================================================== *)
(** ** Further observations *)
(* ===================================================================== *)

(** The drawing calls of [create_dmg_background] on a canvas of any size. *)
Definition drawn_on (env : Env) (output_path : string) (width height : Z)
    (w : world) : list draw_op :=
  match w_image (create_dmg_background env output_path width height w).2 with
  | Some im => img_ops im
  | None => []
  end.

(** The [fill] argument of a drawing call. *)
Definition fill_of (op : draw_op) : color :=
  match op with
  | Line _ c _ => c
  | Polygon _ c => c
  | Ellipse _ c => c
  | Text _ _ c _ => c
  end.

(** An RGB triple Pillow accepts for an 8-bit image. *)
Definition valid_rgb (c : color) : Prop :=
  match c with
  | (r, g, b) => 0 <= r <= 255 /\ 0 <= g <= 255 /\ 0 <= b <= 255
  end.

(** Both handles come from one candidate file that exists and loads at
    size 24: the title handle is that file at 24, the instruction handle is
    that file at 14 or was never bound. *)
Definition single_file_handles (env : Env) (fs : FS)
    (fonts : option font * option font) : Prop :=
  exists p,
    In p font_paths /\ path_exists p fs = true
    /\ font_load env p 24 = Loaded
    /\ fonts.1 = Some (TrueType p 24)
    /\ (fonts.2 = None
        \/ (fonts.2 = Some (TrueType p 14) /\ font_load env p 14 = Loaded)).

(** The working directory [/home] with a regular file [notes] in it. *)
Definition fs_notes : FS :=
  mkFS ["home"]
    (<[ ["home"] := Dir ]> (<[ ["home"; "notes"] := File Blob ]> ∅)).

(* ===================================================================== *)
(** ** Output paths within the range of the model *)
(* ===================================================================== *)

(** A path component that names a directory entry: neither [.] nor [..]. *)
Definition plain (c : string) : bool :=
  negb (String.eqb c ".") && negb (String.eqb c "..").

(** The directory in which the resolution of [p] starts. *)
Definition start_dir (fs : FS) (p : string) : list string :=
  if is_absolute p then [] else cwd fs.

Definition is_dir (n : option node) : bool :=
  match n with
  | Some Dir => true
  | _ => false
  end.

Definition is_file (n : option node) : bool :=
  match n with
  | Some (File _) => true
  | _ => false
  end.

(** A printable ASCII character: no NUL (which [os] functions refuse with
    [ValueError]) and nothing [print] might be unable to encode. *)
Definition portable_char (a : ascii) : bool :=
  (32 <=? nat_of_ascii a)%nat && (nat_of_ascii a <=? 126)%nat.

Fixpoint all_portable (s : string) : bool :=
  match s with
  | EmptyString => true
  | String a s' => portable_char a && all_portable s'
  end.

(** The longest file name common file systems accept (NAME_MAX). *)
Definition name_max : nat := 255.

(** A path of printable ASCII characters no longer than [name_max]: every
    component is a legal file name, the path stays below PATH_MAX, and it
    has at most 128 components, so that the recursion of [os.makedirs]
    stays far below the interpreter's recursion limit. *)
Definition portable_path (p : string) : bool :=
  (String.length p <=? name_max)%nat && all_portable p.

(** [can_create fs p]: the output path [p] can be created in [fs] together
    with its missing parent directories.  The path is portable, has a
    directory part, does not end with a separator, and is made of plain
    components; resolution starts in an existing directory; no regular file
    stands where the parent directory or one of its ancestors is needed;
    and no directory stands where the file goes. *)
Definition can_create (fs : FS) (p : string) : bool :=
  let comps := components p in
  let start := start_dir fs p in
  portable_path p
  && match rfind sep p with Some _ => true | None => false end
  && negb (ends_with_sep p)
  && forallb plain comps
  && is_dir (node_at fs start)
  && forallb (fun k => negb (is_file (node_at fs (start ++ take k comps))))
       (seq 0 (List.length comps))
  && negb (is_dir (node_at fs (start ++ comps))).

(* ===================================================================== *)
(** ** Arithmetic of the two float expressions *)
(* ===================================================================== *)

Lemma gradient_value_floor (y : Z) (d : positive) :
  0 <= y -> gradient_value y (Z.pos d) = 240 + 15 * y / Z.pos d.
Proof.
  intros Hy. unfold gradient_value, py_int.
  cbn [Qplus Qdiv Qmult Qinv inject_Z Qnum Qden].
  rewrite Z.quot_div_nonneg by lia.
  replace (240 * Z.pos (1 * d) + 15 * y * 1 * 1) with (15 * y + 240 * Z.pos d)
    by lia.
  replace (Z.pos (1 * (1 * d))) with (Z.pos d) by lia.
  rewrite Z.div_add by lia. lia.
Qed.

Lemma gradient_value_300 (y : Z) :
  0 <= y -> gradient_value y 300 = 240 + y / 20.
Proof.
  intros Hy. rewrite gradient_value_floor by done.
  change (Z.pos 300) with (15 * 20).
  by rewrite Z.div_mul_cancel_l.
Qed.

Lemma tail_y_floor (cat_y i : Z) :
  0 <= i -> tail_y cat_y i = cat_y + 10 + i * i / 80.
Proof.
  intros Hi. unfold tail_y, py_int. cbn.
  rewrite Z.quot_div_nonneg by nia.
  replace (5 * (i * 1 * (i * 1))) with (5 * (i * i)) by lia.
  change (Z.pos (1 * (1 * 20 * (1 * 20)))) with (5 * 80).
  by rewrite Z.div_mul_cancel_l.
Qed.

(** On the ranges of the two loops the rational model and binary64
    evaluation give the same integers. *)
Lemma gradient_value_float_agrees :
  forallb (fun y => gradient_value_float y 300 =? gradient_value y 300)
    (py_range 300) = true.
Proof. vm_compute. reflexivity. Qed.

Lemma tail_y_float_agrees :
  forallb (fun i => tail_y_float 200 i =? tail_y 200 i) (py_range 20) = true.
Proof. vm_compute. reflexivity. Qed.

Lemma py_range_nth (n : Z) (k : nat) :
  (k < Z.to_nat n)%nat -> nth_error (py_range n) k = Some (Z.of_nat k).
Proof.
  intros Hk. unfold py_range. rewrite nth_error_map, nth_error_seq.
  by destruct (Nat.ltb_spec k (Z.to_nat n)); [|lia].
Qed.

Lemma py_range_length (n : Z) : List.length (py_range n) = Z.to_nat n.
Proof. unfold py_range. by rewrite length_map, length_seq. Qed.

Lemma py_range_bounds (n x : Z) : In x (py_range n) -> 0 <= x < n.
Proof.
  unfold py_range. rewrite in_map_iff. intros (k & <- & Hk).
  apply in_seq in Hk. lia.
Qed.

(* ===================================================================== *)
(** ** Running the drawing passes *)
(* ===================================================================== *)

Lemma paint_paint im a b : paint (paint im a) b = paint im (a ++ b).
Proof. unfold paint. cbn. by rewrite <- app_assoc. Qed.

Lemma run_draw {B} op (k : unit -> M B) fs out im :
  bind (draw op) k (mkWorld fs out (Some im)) =
  k tt (mkWorld fs out (Some (paint im [op]))).
Proof. reflexivity. Qed.

Lemma for_each_draw {A} (f : A -> draw_op) (l : list A) fs out im :
  for_each l (fun x => draw (f x)) (mkWorld fs out (Some im)) =
  (Ret tt, mkWorld fs out (Some (paint im (map f l)))).
Proof.
  revert im. induction l as [|x l IH]; intros im; cbn [for_each map].
  - unfold paint. rewrite app_nil_r. by destruct im.
  - rewrite run_draw, IH, paint_paint. done.
Qed.

Lemma run_for_each_draw {A B} (f : A -> draw_op) l (k : unit -> M B) fs out im :
  bind (for_each l (fun x => draw (f x))) k (mkWorld fs out (Some im)) =
  k tt (mkWorld fs out (Some (paint im (map f l)))).
Proof. unfold bind at 1. by rewrite for_each_draw. Qed.

Lemma probe_fonts_reads_fs env paths fonts w :
  probe_fonts env paths fonts w =
  ((probe_fonts env paths fonts (initial_world (w_fs w))).1, w).
Proof.
  revert fonts. induction paths as [|p rest IH]; intros fonts; [done|].
  simpl. unfold bind, os_path_exists, truetype. simpl.
  destruct (path_exists p (w_fs w)); [|apply IH].
  destruct (font_load env p 24); simpl; [|apply IH|done].
  destruct (font_load env p 14); simpl; [done|apply IH|done].
Qed.

Lemma probe_fonts_raises env paths fonts w e w' :
  probe_fonts env paths fonts w = (Raise e, w') -> e = OtherException.
Proof.
  revert fonts. induction paths as [|p rest IH]; intros fonts; [done|].
  simpl. unfold bind, os_path_exists, truetype. simpl.
  destruct (path_exists p (w_fs w)); [|apply IH].
  destruct (font_load env p 24); simpl; [|apply IH|congruence].
  destruct (font_load env p 14); simpl; [done|apply IH|congruence].
Qed.

Lemma resolve_fonts_run env w :
  resolve_fonts env w = (Ret (selected_fonts env (w_fs w)), w).
Proof.
  unfold selected_fonts, resolve_fonts, try_except, bind.
  generalize (probe_fonts_reads_fs env font_paths (None, None) w).
  generalize (probe_fonts_raises env font_paths (None, None)
                (initial_world (w_fs w))).
  generalize (probe_fonts env font_paths (None, None)) as probe.
  intros probe Hraise ->.
  destruct (probe (initial_world (w_fs w))) as [[[[tf|] inf]|e] w'];
    cbn [fst snd]; try done.
  by rewrite (Hraise e w' eq_refl).
Qed.

Lemma create_dmg_background_run env output_path width height w :
  create_dmg_background env output_path width height w =
  let im := canvas env (w_fs w) width height in
  match write_file output_path (PNG im) (w_fs w) with
  | inr fs' =>
      (Ret tt,
       mkWorld fs'
         (w_stdout w ++ [created_prefix +:+ output_path])
         (Some im))
  | inl e => (Raise e, mkWorld (w_fs w) (w_stdout w) (Some im))
  end.
Proof.
  unfold create_dmg_background.
  change (for_each (py_range height) _)
    with (for_each (py_range height)
            (fun y => draw (gradient_line width height y))).
  change (for_each (py_range 20) _)
    with (for_each (py_range 20) (fun i => draw (tail_ellipse i))).
  destruct w as [fs out im0].
  unfold bind at 1. unfold Image_new at 1. cbn [w_fs w_stdout].
  rewrite run_for_each_draw.
  unfold bind at 1. rewrite resolve_fonts_run. cbn [w_fs].
  destruct (selected_fonts env fs) as [title_font instruction_font] eqn:Hf.
  rewrite !run_draw, run_for_each_draw, run_draw, !paint_paint.
  match goal with
  | |- context [Some (paint ?i ?ops)] =>
      replace (paint i ops) with (canvas env fs width height)
        by (unfold canvas, overlay; rewrite Hf; reflexivity)
  end.
  unfold bind, Image_save, os_call, print. cbn [w_fs w_stdout w_image].
  by destruct (write_file _ _ _).
Qed.

(* ===================================================================== *)
(** ** Paths and the file system *)
(* ===================================================================== *)

Section Strings.

Implicit Types (s h t p : string) (c a : ascii).

Lemma str_app_nil s : EmptyString +:+ s = s.
Proof. reflexivity. Qed.

Lemma str_app_cons a s t : String a s +:+ t = String a (s +:+ t).
Proof. reflexivity. Qed.

Ltac str_simpl := rewrite ?str_app_cons, ?str_app_nil; simpl.

Lemma substring_0_0 s : substring 0 0 s = EmptyString.
Proof. by destruct s. Qed.

Lemma substring_prefix h t :
  substring 0 (String.length h) (h +:+ t) = h.
Proof.
  induction h as [|a h IH]; str_simpl; [apply substring_0_0 | by rewrite IH].
Qed.

Lemma substring_full t : substring 0 (String.length t) t = t.
Proof. induction t as [|b t IH]; str_simpl; [done | by rewrite IH]. Qed.

Lemma substring_suffix h t :
  substring (String.length h) (String.length t) (h +:+ t) = t.
Proof. induction h as [|a h IH]; str_simpl; [apply substring_full | done]. Qed.

Lemma string_app_assoc s1 s2 s3 : (s1 +:+ s2) +:+ s3 = s1 +:+ (s2 +:+ s3).
Proof. induction s1 as [|a s1 IH]; str_simpl; [done | by rewrite IH]. Qed.

Lemma string_app_length s1 s2 :
  String.length (s1 +:+ s2) = (String.length s1 + String.length s2)%nat.
Proof. induction s1 as [|a s1 IH]; str_simpl; [done | by rewrite IH]. Qed.

(** A string with a separator splits at the last one. *)
Lemma rfind_Some c p k :
  rfind c p = Some k ->
  exists h t, p = h +:+ String c t /\ String.length h = k /\ rfind c t = None.
Proof.
  revert k. induction p as [|a p IH]; intros k; str_simpl; [done|].
  destruct (rfind c p) as [i|] eqn:Hr.
  - intros [= <-]. destruct (IH i eq_refl) as (h & t & -> & <- & Ht).
    by exists (String a h), t.
  - destruct (Ascii.eqb_spec a c) as [->|]; [|done].
    intros [= <-]. by exists EmptyString, p.
Qed.

Lemma split_sep_cons s : exists w ws, split_sep s = w :: ws.
Proof.
  induction s as [|a s (w & ws & IH)]; str_simpl; [by eexists _, _|].
  destruct (Ascii.eqb a sep); [by eexists _, _|].
  rewrite IH. by eexists _, _.
Qed.

Lemma split_sep_app h t :
  split_sep (h +:+ String sep t) = split_sep h ++ split_sep t.
Proof.
  induction h as [|a h IH]; str_simpl; [done|].
  destruct (Ascii.eqb a sep); rewrite IH; [done|].
  by destruct (split_sep_cons h) as (w & ws & ->).
Qed.

Lemma split_sep_no_sep t : rfind sep t = None -> split_sep t = [t].
Proof.
  induction t as [|a t IH]; str_simpl; [done|].
  destruct (rfind sep t); [done|].
  destruct (Ascii.eqb a sep); [done|]. intros _. by rewrite IH.
Qed.

Lemma components_app h t :
  rfind sep t = None ->
  components (h +:+ String sep t) =
  components h ++ (if is_empty t then [] else [t]).
Proof.
  intros Ht. unfold components.
  rewrite split_sep_app, List.filter_app, (split_sep_no_sep t Ht). str_simpl.
  by destruct t.
Qed.

Lemma components_all_sep s : all_char sep s = true -> components s = [].
Proof.
  unfold components. induction s as [|a s IH]; str_simpl; [done|].
  destruct (Ascii.eqb a sep); str_simpl; [|done]. auto.
Qed.

Lemma split_sep_rstrip s :
  exists w ws ws',
    split_sep s = w :: ws /\ split_sep (rstrip sep s) = w :: ws' /\
    List.filter (fun x => negb (is_empty x)) ws =
    List.filter (fun x => negb (is_empty x)) ws'.
Proof.
  induction s as [|a s (w & ws & ws' & Hs & Hr & Hf)]; str_simpl.
  { by eexists _, _, _. }
  destruct (Ascii.eqb a sep) eqn:Ha; str_simpl.
  - destruct (all_char sep s) eqn:Hall; str_simpl.
    + exists EmptyString, (split_sep s), []. split_and!; [done..|].
      by apply components_all_sep.
    + rewrite Ha, Hs, Hr. exists EmptyString, (w :: ws), (w :: ws').
      split_and!; [done..|]. str_simpl. by rewrite Hf.
  - rewrite Ha, Hs, Hr. by eexists _, _, _.
Qed.

Lemma components_rstrip s : components (rstrip sep s) = components s.
Proof.
  unfold components.
  destruct (split_sep_rstrip s) as (w & ws & ws' & -> & -> & Hf).
  str_simpl. by rewrite Hf.
Qed.

Lemma rstrip_not_all s :
  all_char sep s = false ->
  is_empty (rstrip sep s) = false /\
  is_absolute (rstrip sep s) = is_absolute s.
Proof.
  destruct s as [|a s]; str_simpl; [done|].
  by destruct (Ascii.eqb a sep && all_char sep s).
Qed.

Lemma rstrip_length s : (String.length (rstrip sep s) <= String.length s)%nat.
Proof.
  induction s as [|a s IH]; str_simpl; [done|].
  destruct (Ascii.eqb a sep && all_char sep s); str_simpl; lia.
Qed.

(** The two results of [split] in terms of the decomposition. *)
Lemma path_split_no_sep p : rfind sep p = None -> path_split p = (EmptyString, p).
Proof.
  intros Hr. unfold path_split. rewrite Hr, substring_0_0. str_simpl.
  by rewrite Nat.sub_0_r, substring_full.
Qed.

Lemma path_split_sep h t :
  rfind sep t = None ->
  path_split (h +:+ String sep t) =
  (let head := h +:+ String sep EmptyString in
   if negb (is_empty head) && negb (all_char sep head)
   then rstrip sep head else head, t).
Proof.
  intros Ht. unfold path_split.
  assert (rfind sep (h +:+ String sep t) = Some (String.length h)) as ->.
  { clear -Ht. induction h as [|a h IH]; str_simpl; [by rewrite Ht|].
    by rewrite IH. }
  assert (h +:+ String sep t = (h +:+ String sep EmptyString) +:+ t) as Hp
    by (by rewrite string_app_assoc).
  assert (S (String.length h) = String.length (h +:+ String sep EmptyString))
    as Hl by (rewrite string_app_length; str_simpl; lia).
  rewrite Hl, Hp, substring_prefix.
  replace (String.length ((h +:+ String sep EmptyString) +:+ t)
           - String.length (h +:+ String sep EmptyString))%nat
    with (String.length t) by (rewrite string_app_length; lia).
  by rewrite substring_suffix.
Qed.

Lemma dirname_split p : dirname p = (path_split p).1.
Proof. reflexivity. Qed.

Lemma dirname_no_sep p : rfind sep p = None -> dirname p = EmptyString.
Proof. intros Hr. by rewrite dirname_split, path_split_no_sep. Qed.

Lemma path_split_length p :
  (String.length (path_split p).1 + String.length (path_split p).2
   <= String.length p)%nat.
Proof.
  destruct (rfind sep p) as [k|] eqn:Hr.
  - destruct (rfind_Some _ _ _ Hr) as (h & t & -> & _ & Ht).
    rewrite (path_split_sep h t Ht). cbn [fst snd].
    rewrite string_app_length. cbn [String.length].
    pose proof (rstrip_length (h +:+ String sep EmptyString)) as Hs.
    rewrite string_app_length in Hs. cbn [String.length] in Hs.
    destruct (_ && _); [lia|]. rewrite string_app_length. str_simpl. lia.
  - rewrite (path_split_no_sep p Hr). str_simpl. lia.
Qed.

(** The parent named by [dirname] is the directory path resolution reaches
    before the last component. *)
Lemma dirname_components p k :
  rfind sep p = Some k -> ends_with_sep p = false ->
  exists t,
    components p = components (dirname p) ++ [t] /\
    is_empty (dirname p) = false /\
    is_absolute (dirname p) = is_absolute p.
Proof.
  intros Hr Hend.
  destruct (rfind_Some _ _ _ Hr) as (h & t & -> & _ & Ht).
  exists t. rewrite dirname_split, (path_split_sep h t Ht). cbn [fst].
  assert (is_empty t = false) as Hne.
  { destruct t; [|done]. exfalso. clear -Hend.
    induction h as [|a h IH]; simpl in Hend; [done|].
    destruct (h +:+ String sep EmptyString) eqn:E; [by destruct h|]. auto. }
  rewrite (components_app h t Ht), Hne.
  assert (components (h +:+ String sep EmptyString) = components h) as Hc.
  { rewrite (components_app h EmptyString eq_refl). str_simpl. by rewrite app_nil_r. }
  assert (is_absolute (h +:+ String sep EmptyString)
          = is_absolute (h +:+ String sep t)) as Ha by (by destruct h).
  assert (is_empty (h +:+ String sep EmptyString) = false) as He
    by (by destruct h).
  rewrite He. cbn [negb andb].
  destruct (all_char sep (h +:+ String sep EmptyString)) eqn:Hall; cbn [negb].
  - by rewrite Hc.
  - rewrite components_rstrip, Hc.
    destruct (rstrip_not_all _ Hall) as [-> ->]. done.
Qed.

End Strings.

Section FileSystem.

Implicit Types (fs : FS) (cur c : list string) (l comps : list string).

Lemma walk_app fs cur l1 l2 :
  walk fs cur (l1 ++ l2) =
  match walk fs cur l1 with
  | inr c => walk fs c l2
  | inl e => inl e
  end.
Proof.
  revert cur. induction l1 as [|x l1 IH]; intros cur; simpl; [done|].
  destruct (node_at fs cur) as [[|d]|]; auto.
Qed.

Lemma walk_last_dir fs cur l t c :
  walk fs cur (l ++ [t]) = inr c ->
  exists c', walk fs cur l = inr c' /\ node_at fs c' = Some Dir.
Proof.
  rewrite walk_app. destruct (walk fs cur l) as [e|c']; [done|]. simpl.
  destruct (node_at fs c') as [[|d]|] eqn:Hn; [|done..].
  intros _. by exists c'.
Qed.

(** Storing a file where no directory was leaves every directory in
    place, so path resolution goes on as before. *)
Lemma node_at_insert_file fs c d cur :
  node_at fs c <> Some Dir -> node_at fs cur = Some Dir ->
  node_at (mkFS (cwd fs) (<[c := File d]> (nodes fs))) cur = Some Dir.
Proof.
  intros Hc Hcur. destruct cur as [|x cur]; [done|]. simpl in *.
  rewrite lookup_insert_ne; [done|]. intros ->. by destruct Hc.
Qed.

Lemma walk_insert_file fs c d cur l r :
  node_at fs c <> Some Dir -> walk fs cur l = inr r ->
  walk (mkFS (cwd fs) (<[c := File d]> (nodes fs))) cur l = inr r.
Proof.
  intros Hc. revert cur. induction l as [|x l IH]; intros cur; simpl; [done|].
  destruct (node_at fs cur) as [[|d']|] eqn:Hn; [|done..].
  intros Hw. rewrite (node_at_insert_file fs c d cur Hc Hn). auto.
Qed.

(** What a successful [write_file] did. *)
Lemma write_file_inr p data fs fs' :
  write_file p data fs = inr fs' ->
  exists c,
    lookup_path p fs = inr c /\ ends_with_sep p = false /\
    node_at fs c <> Some Dir /\
    fs' = mkFS (cwd fs) (<[c := File data]> (nodes fs)).
Proof.
  unfold write_file. destruct (lookup_path p fs) as [e|c]; [done|].
  destruct (ends_with_sep p); [done|].
  destruct (node_at fs c) as [[|d]|] eqn:Hn; [done|..];
    intros [= <-]; exists c; by rewrite ?Hn.
Qed.

Lemma writable_write_file p data fs :
  writable p fs = true -> exists fs', write_file p data fs = inr fs'.
Proof.
  unfold writable, write_file. destruct (lookup_path p fs) as [e|c]; [done|].
  destruct (ends_with_sep p); [done|].
  destruct (node_at fs c) as [[|d]|]; [done|eauto..].
Qed.

(** A file that can be written lies in an existing directory, the one
    [dirname] names, provided the path has a directory part. *)
Lemma write_file_parent_isdir p data fs fs' k :
  rfind sep p = Some k ->
  write_file p data fs = inr fs' ->
  path_isdir (dirname p) fs = true /\ path_isdir (dirname p) fs' = true.
Proof.
  intros Hr Hw.
  destruct (write_file_inr _ _ _ _ Hw) as (c & Hl & Hend & Hc & ->).
  destruct (dirname_components p k Hr Hend) as (t & Hcomp & Hne & Habs).
  unfold lookup_path in Hl. rewrite Hcomp in Hl.
  destruct (is_empty p); [done|].
  destruct (walk_last_dir _ _ _ _ _ Hl) as (c' & Hwalk & Hdir).
  unfold path_isdir, lookup_path. rewrite Hne, Habs. cbn [cwd].
  rewrite Hwalk, Hdir.
  rewrite (walk_insert_file fs c (data) _ _ c' Hc Hwalk).
  by rewrite (node_at_insert_file fs c data c' Hc Hdir).
Qed.

Lemma write_file_read p data fs fs' :
  write_file p data fs = inr fs' -> read_file p fs' = Some data.
Proof.
  intros Hw.
  destruct (write_file_inr _ _ _ _ Hw) as (c & Hl & Hend & Hc & ->).
  unfold read_file, lookup_path in *. cbn [cwd].
  destruct (is_empty p); [done|].
  rewrite (walk_insert_file fs c data _ _ c Hc Hl), Hend.
  destruct c as [|x c]; [by destruct Hc|]. simpl.
  by rewrite lookup_insert_eq.
Qed.

(** [makedirs] of the empty path fails: [mkdir("")] raises
    [FileNotFoundError] and [isdir("")] is false. *)
Lemma makedirs_empty fs : makedirs EmptyString fs = inl FileNotFoundError.
Proof. reflexivity. Qed.

(** The name [makedirs] recurses on is strictly shorter. *)
Lemma makedirs_head_shorter name head tail head' tail' :
  path_split name = (head, tail) ->
  (if is_empty tail then path_split head else (head, tail)) = (head', tail') ->
  is_empty tail' = false ->
  (String.length head' < String.length name)%nat.
Proof.
  intros Hs Hs' Hne. pose proof (path_split_length name) as Hlen.
  rewrite Hs in Hlen. cbn [fst snd] in Hlen.
  destruct tail as [|a tail]; simpl in Hs'.
  - pose proof (path_split_length head) as Hlen'. rewrite Hs' in Hlen'.
    cbn [fst snd] in Hlen'. destruct tail'; [done|]. simpl in *. lia.
  - injection Hs' as <- <-. simpl in *. lia.
Qed.

(** Fuel beyond the length of the name changes nothing. *)
Lemma makedirs_fuel_enough n m name fs :
  (String.length name < n)%nat -> (String.length name < m)%nat ->
  makedirs_fuel n name fs = makedirs_fuel m name fs.
Proof.
  revert m name fs. induction n as [|n IH]; intros m name fs Hn Hm; [lia|].
  destruct m as [|m]; [lia|]. cbn [makedirs_fuel].
  destruct (path_split name) as [head tail] eqn:Hs.
  destruct (if is_empty tail then path_split head else (head, tail))
    as [head' tail'] eqn:Hs'.
  destruct (is_empty head'); cbn [negb andb]; [done|].
  destruct (is_empty tail') eqn:Ht; cbn [negb andb]; [done|].
  destruct (path_exists head' fs); cbn [negb andb]; [done|].
  pose proof (makedirs_head_shorter _ _ _ _ _ Hs Hs' Ht).
  by rewrite (IH m head' fs) by lia.
Qed.

Lemma makedirs_fuel_total n name fs :
  (String.length name < n)%nat -> makedirs_fuel n name fs = makedirs name fs.
Proof. intros Hn. apply makedirs_fuel_enough; [done|lia]. Qed.

Lemma walk_error fs cur l e :
  walk fs cur l = inl e -> e = NotADirectoryError \/ e = FileNotFoundError.
Proof.
  revert cur. induction l as [|x l IH]; intros cur; simpl; [done|].
  destruct (node_at fs cur) as [[|d]|]; [apply IH | intros [= <-]; auto..].
Qed.

Lemma mkdir_exist_ok_error name fs e :
  mkdir_exist_ok name fs = inl e -> is_OSError e = true.
Proof.
  unfold mkdir_exist_ok, mkdir, lookup_path.
  destruct (is_empty name).
  { cbn. destruct (path_isdir name fs); [done|]. by intros [= <-]. }
  destruct (walk _ _ _) as [e'|c] eqn:Hw.
  - destruct (walk_error _ _ _ _ Hw) as [-> | ->]; cbn;
      (destruct (path_isdir name fs); [done|]); by intros [= <-].
  - destruct (node_at fs c); [|done]. cbn.
    destruct (path_isdir name fs); [done|]. by intros [= <-].
Qed.

(** With fuel beyond the length of the name, every error [makedirs]
    reports is an [OSError] of the file system. *)
Lemma makedirs_fuel_error n name fs e :
  (String.length name < n)%nat ->
  makedirs_fuel n name fs = inl e -> is_OSError e = true.
Proof.
  revert name fs e. induction n as [|n IH]; intros name fs e Hn; [lia|].
  cbn [makedirs_fuel].
  destruct (path_split name) as [head tail] eqn:Hs.
  destruct (if is_empty tail then path_split head else (head, tail))
    as [head' tail'] eqn:Hs'.
  destruct (is_empty head'); cbn [negb andb]; [apply mkdir_exist_ok_error|].
  destruct (is_empty tail') eqn:Ht; cbn [negb andb];
    [apply mkdir_exist_ok_error|].
  destruct (path_exists head' fs); cbn [negb andb];
    [apply mkdir_exist_ok_error|].
  pose proof (makedirs_head_shorter _ _ _ _ _ Hs Hs' Ht).
  destruct (makedirs_fuel n head' fs) as [e'|fs'] eqn:Hrec.
  - apply IH in Hrec; [|lia].
    destruct (is_FileExistsError e') eqn:He'.
    + destruct (String.eqb tail' "."); [done | apply mkdir_exist_ok_error].
    + by intros [= <-].
  - destruct (String.eqb tail' "."); [done | apply mkdir_exist_ok_error].
Qed.

End FileSystem.

(* ===================================================================== *)
(** ** Creating directories *)
(* ===================================================================== *)

Lemma ends_with_sep_app h t :
  is_empty t = false -> ends_with_sep (h +:+ t) = ends_with_sep t.
Proof.
  intros Ht. induction h as [|a h IH]; [done|].
  rewrite str_app_cons. cbn [ends_with_sep].
  destruct (h +:+ t) eqn:E; [|done].
  destruct h; [|done]. rewrite str_app_nil in E. by rewrite E in Ht.
Qed.

Lemma no_sep_not_ends t : rfind sep t = None -> ends_with_sep t = false.
Proof.
  induction t as [|a t IH]; [done|]. cbn [rfind].
  destruct (rfind sep t); [done|].
  destruct (Ascii.eqb a sep) eqn:Ha; [done|]. intros _.
  cbn [ends_with_sep]. destruct t; [done | by apply IH].
Qed.

Lemma rstrip_empty s : rstrip sep s = EmptyString -> all_char sep s = true.
Proof.
  destruct s as [|a s]; [done|]. cbn [rstrip all_char].
  by destruct (Ascii.eqb a sep && all_char sep s).
Qed.

Lemma ends_with_sep_rstrip s : ends_with_sep (rstrip sep s) = false.
Proof.
  induction s as [|a s IH]; [done|]. cbn [rstrip].
  destruct (Ascii.eqb a sep && all_char sep s) eqn:E; [done|].
  cbn [ends_with_sep]. destruct (rstrip sep s) eqn:Hr; [|done].
  apply rstrip_empty in Hr. rewrite Hr, andb_true_r in E. done.
Qed.

Lemma lookup_path_parent d fs c k :
  rfind sep d = Some k -> ends_with_sep d = false ->
  lookup_path d fs = inr c ->
  path_exists (path_split d).1 fs = true.
Proof.
  intros Hr Hend Hl.
  destruct (dirname_components d k Hr Hend) as (t & Hcomp & Hne & Habs).
  rewrite dirname_split in *.
  unfold lookup_path in Hl. rewrite Hcomp in Hl.
  destruct (is_empty d); [done|].
  destruct (walk_last_dir _ _ _ _ _ Hl) as (c' & Hwalk & Hdir).
  unfold path_exists, lookup_path. by rewrite Hne, Habs, Hwalk, Hdir.
Qed.

Lemma path_isdir_inv d fs :
  path_isdir d fs = true ->
  exists c, lookup_path d fs = inr c /\ node_at fs c = Some Dir.
Proof.
  unfold path_isdir. destruct (lookup_path d fs) as [e|c]; [done|].
  destruct (node_at fs c) as [[|x]|] eqn:Hn; [|done..]. intros _. by exists c.
Qed.

Lemma mkdir_exist_ok_existing d fs :
  path_isdir d fs = true -> mkdir_exist_ok d fs = inr fs.
Proof.
  intros Hdir. destruct (path_isdir_inv _ _ Hdir) as (c & Hl & Hn).
  unfold mkdir_exist_ok, mkdir. rewrite Hl, Hn. cbn. by rewrite Hdir.
Qed.

(** [makedirs(..., exist_ok=True)] on an existing directory does nothing. *)
Lemma makedirs_existing d fs :
  path_isdir d fs = true -> makedirs d fs = inr fs.
Proof.
  intros Hdir. destruct (path_isdir_inv _ _ Hdir) as (c & Hl & Hn).
  unfold makedirs. cbn [makedirs_fuel].
  assert (is_empty d = false) as Hd.
  { unfold lookup_path in Hl. by destruct (is_empty d). }
  assert (forall head tail head' tail',
    path_split d = (head, tail) ->
    (if is_empty tail then path_split head else (head, tail)) = (head', tail') ->
    is_empty head' = false -> is_empty tail' = false ->
    path_exists head' fs = true) as Hparent.
  { intros head tail head' tail' Hs Hs' Hh Ht.
    destruct (rfind sep d) as [k|] eqn:Hr.
    2:{ rewrite (path_split_no_sep d Hr) in Hs. injection Hs as <- <-.
        rewrite Hd in Hs'. injection Hs' as <- <-. done. }
    destruct (rfind_Some _ _ _ Hr) as (h & t & Hdeq & _ & Htsep).
    pose proof Hs as Hs0. rewrite Hdeq, (path_split_sep h t Htsep) in Hs0.
    injection Hs0 as Hhead <-.
    destruct (is_empty t) eqn:Hte.
    - (* d ends with a separator: the second split *)
      destruct t; [|done]. rewrite <- Hdeq in Hhead.
      rewrite Hd in Hhead. cbn [negb andb] in Hhead.
      destruct (all_char sep d) eqn:Hall; cbn [negb] in Hhead.
      + subst head. rewrite Hs in Hs'. injection Hs' as <- <-. done.
      + destruct (rstrip_not_all _ Hall) as [Hne Habs].
        rewrite Hhead in Hne, Habs.
        assert (lookup_path head fs = inr c) as Hl'.
        { unfold lookup_path in *. rewrite Hd in Hl. rewrite Hne, Habs.
          by rewrite <- Hhead, components_rstrip. }
        assert (ends_with_sep head = false) as Hend
          by (rewrite <- Hhead; apply ends_with_sep_rstrip).
        destruct (rfind sep head) as [k'|] eqn:Hr'.
        2:{ rewrite (path_split_no_sep head Hr') in Hs'.
            injection Hs' as <- <-. done. }
        pose proof (lookup_path_parent head fs c k' Hr' Hend Hl') as Hex.
        by rewrite Hs' in Hex.
    - injection Hs' as <- <-.
      assert (ends_with_sep d = false) as Hend.
      { rewrite Hdeq.
        rewrite ends_with_sep_app by done. cbn [ends_with_sep].
        destruct t; [done|]. by apply no_sep_not_ends. }
      pose proof (lookup_path_parent d fs c k Hr Hend Hl) as Hex.
      by rewrite Hs in Hex. }
  destruct (path_split d) as [head tail] eqn:Hs.
  destruct (if is_empty tail then path_split head else (head, tail))
    as [head' tail'] eqn:Hs'.
  destruct (is_empty head') eqn:Hh; cbn [negb andb];
    [by apply mkdir_exist_ok_existing|].
  destruct (is_empty tail') eqn:Ht; cbn [negb andb];
    [by apply mkdir_exist_ok_existing|].
  rewrite (Hparent head tail head' tail' eq_refl Hs' Hh Ht). cbn [negb].
  by apply mkdir_exist_ok_existing.
Qed.

Lemma step_plain cur c : plain c = true -> step cur c = cur ++ [c].
Proof.
  unfold plain, step. by destruct (String.eqb c "."), (String.eqb c "..").
Qed.

Lemma walk_plain fs cur l r :
  forallb plain l = true -> walk fs cur l = inr r -> r = cur ++ l.
Proof.
  revert cur. induction l as [|x l IH]; intros cur; cbn [forallb walk].
  { intros _ [= <-]. by rewrite app_nil_r. }
  intros [Hx Hl]%andb_true_iff.
  destruct (node_at fs cur) as [[|d]|]; [|done..].
  rewrite (step_plain _ _ Hx). intros ->%IH; [|done]. by rewrite <- app_assoc.
Qed.

Lemma walk_mono fs fs' cur l r :
  (forall c, node_at fs c = Some Dir -> node_at fs' c = Some Dir) ->
  walk fs cur l = inr r -> walk fs' cur l = inr r.
Proof.
  intros Hd. revert cur. induction l as [|x l IH]; intros cur; cbn [walk]; [done|].
  destruct (node_at fs cur) as [[|d]|] eqn:Hn; [|done..].
  rewrite (Hd _ Hn). auto.
Qed.

(** [mkdir] with [exist_ok] where no regular file is in the way. *)
Lemma mkdir_exist_ok_at d fs c :
  lookup_path d fs = inr c -> is_file (node_at fs c) = false ->
  exists fs1,
    mkdir_exist_ok d fs = inr fs1
    /\ cwd fs1 = cwd fs
    /\ lookup_path d fs1 = inr c
    /\ node_at fs1 c = Some Dir
    /\ forall c', nodes fs1 !! c' = nodes fs !! c'
                  \/ (c' = c /\ nodes fs1 !! c' = Some Dir).
Proof.
  intros Hl Hf. unfold mkdir_exist_ok, mkdir. rewrite Hl.
  destruct (node_at fs c) as [[|x]|] eqn:Hn; [|done|].
  - cbn. unfold path_isdir. rewrite Hl, Hn. exists fs. split_and!; auto.
  - eexists. split; [done|]. cbn [cwd nodes].
    assert (c <> []) as Hc by (by intros ->).
    assert (forall c0, node_at fs c0 = Some Dir ->
              node_at (mkFS (cwd fs) (<[c:=Dir]> (nodes fs))) c0 = Some Dir) as Hd.
    { intros [|y c0]; [done|]. cbn [node_at nodes]. intros H0.
      destruct (decide (c = y :: c0)) as [->|Hne];
        [by rewrite lookup_insert_eq | by rewrite lookup_insert_ne]. }
    split_and!; [done| | |].
    + unfold lookup_path in *. cbn [cwd]. destruct (is_empty d); [done|].
      by apply (walk_mono fs).
    + destruct c; [done|]. cbn [node_at nodes]. by rewrite lookup_insert_eq.
    + intros c'. destruct (decide (c = c')) as [<-|Hne].
      * right. by rewrite lookup_insert_eq.
      * left. by rewrite lookup_insert_ne.
Qed.

Lemma ends_with_sep_snoc h : ends_with_sep (h +:+ String sep EmptyString) = true.
Proof.
  induction h as [|a h IH]; [done|]. rewrite str_app_cons. cbn [ends_with_sep].
  destruct (h +:+ String sep EmptyString) eqn:E; [by destruct h | done].
Qed.

(** [split] of a name with a directory part that does not end with a
    separator. *)
Lemma path_split_components d k :
  rfind sep d = Some k -> ends_with_sep d = false ->
  exists head t,
    path_split d = (head, t)
    /\ is_empty t = false
    /\ is_empty head = false
    /\ is_absolute head = is_absolute d
    /\ components d = components head ++ [t]
    /\ (all_char sep head = true \/ ends_with_sep head = false)
    /\ (String.length head < String.length d)%nat.
Proof.
  intros Hr Hend.
  destruct (rfind_Some _ _ _ Hr) as (h & t & -> & _ & Ht).
  assert (is_empty t = false) as Hne.
  { destruct t; [|done]. by rewrite ends_with_sep_snoc in Hend. }
  pose proof (path_split_length (h +:+ String sep t)) as Hlen.
  rewrite (path_split_sep h t Ht) in Hlen |- *. cbv zeta in Hlen |- *.
  cbn [fst snd] in Hlen. eexists _, t. split; [done|].
  assert (components (h +:+ String sep EmptyString) = components h) as Hc.
  { rewrite (components_app h EmptyString eq_refl). cbn. by rewrite app_nil_r. }
  assert (is_absolute (h +:+ String sep EmptyString)
          = is_absolute (h +:+ String sep t)) as Ha by (by destruct h).
  assert (is_empty (h +:+ String sep EmptyString) = false) as He
    by (by destruct h).
  rewrite (components_app h t Ht), Hne.
  assert (String.length t <> 0)%nat as Hlt by (by destruct t).
  rewrite He in *. cbn [negb andb] in *.
  destruct (all_char sep (h +:+ String sep EmptyString)) eqn:Hall;
    cbn [negb] in *.
  - rewrite Hc. split_and!; auto. lia.
  - rewrite components_rstrip, Hc.
    destruct (rstrip_not_all _ Hall) as [-> ->].
    split_and!; auto; [right; apply ends_with_sep_rstrip | lia].
Qed.

Lemma path_exists_all_sep s fs :
  is_empty s = false -> all_char sep s = true -> path_exists s fs = true.
Proof.
  intros Hs Hall. unfold path_exists, lookup_path.
  rewrite Hs, (components_all_sep s Hall).
  destruct s as [|a s]; [done|]. cbn in Hall |- *.
  by destruct (Ascii.eqb a sep).
Qed.

Lemma take_prefix_snoc {A} (l : list A) (t : A) k :
  exists k', (k' <= List.length l)%nat /\ take k l = take k' (l ++ [t]).
Proof.
  destruct (le_lt_dec k (List.length l)) as [Hk|Hk].
  - exists k. by rewrite take_app_le.
  - exists (List.length l). rewrite take_ge by lia.
    by rewrite take_app_length.
Qed.

(** [makedirs] creates the directory and its missing ancestors when the
    name is made of plain components, resolution starts in a directory and
    no regular file stands on the way. *)
Lemma makedirs_fuel_creates n d fs :
  (String.length d < n)%nat ->
  is_empty d = false -> ends_with_sep d = false ->
  forallb plain (components d) = true ->
  node_at fs (start_dir fs d) = Some Dir ->
  (forall k, is_file (node_at fs (start_dir fs d ++ take k (components d)))
             = false) ->
  exists fs1,
    makedirs_fuel n d fs = inr fs1
    /\ cwd fs1 = cwd fs
    /\ lookup_path d fs1 = inr (start_dir fs d ++ components d)
    /\ node_at fs1 (start_dir fs d ++ components d) = Some Dir
    /\ forall c, nodes fs1 !! c = nodes fs !! c
                 \/ ((exists k, c = start_dir fs d ++ take k (components d))
                     /\ nodes fs1 !! c = Some Dir).
Proof.
  revert d fs. induction n as [|n IH]; intros d fs Hn Hd Hend Hplain Hstart Hfile;
    [lia|].
  assert (forall fs0, cwd fs0 = cwd fs ->
            (forall c, node_at fs c = Some Dir -> node_at fs0 c = Some Dir) ->
            is_file (node_at fs0 (start_dir fs d ++ components d)) = false ->
            lookup_path d fs0 = inr (start_dir fs d ++ components d) ->
            (forall c, nodes fs0 !! c = nodes fs !! c
                 \/ ((exists k, c = start_dir fs d ++ take k (components d))
                     /\ nodes fs0 !! c = Some Dir)) ->
            exists fs1,
              mkdir_exist_ok d fs0 = inr fs1
              /\ cwd fs1 = cwd fs
              /\ lookup_path d fs1 = inr (start_dir fs d ++ components d)
              /\ node_at fs1 (start_dir fs d ++ components d) = Some Dir
              /\ forall c, nodes fs1 !! c = nodes fs !! c
                   \/ ((exists k, c = start_dir fs d ++ take k (components d))
                       /\ nodes fs1 !! c = Some Dir)) as Hlast.
  { intros fs0 Hcwd _ Hnf Hl Hpres.
    destruct (mkdir_exist_ok_at d fs0 _ Hl Hnf)
      as (fs1 & Hmk & Hcwd1 & Hl1 & Hn1 & Hp1).
    exists fs1. split_and!; [done | congruence | done | done |].
    intros c. destruct (Hp1 c) as [Heq | [-> Hdir]].
    - rewrite Heq. apply Hpres.
    - right. split; [|done]. exists (List.length (components d)).
      by rewrite take_ge by lia. }
  assert (is_file (node_at fs (start_dir fs d ++ components d)) = false)
    as Hfull.
  { pose proof (Hfile (List.length (components d))) as Hnf.
    by rewrite take_ge in Hnf by lia. }
  cbn [makedirs_fuel].
  destruct (rfind sep d) as [k|] eqn:Hr.
  - destruct (path_split_components d k Hr Hend)
      as (head & t & Hs & Ht & Hh & Habs & Hcomp & Hshape & Hlen).
    rewrite Hs, Ht, Hh, Ht. cbn [negb andb].
    assert (start_dir fs head = start_dir fs d) as Hsd
      by (unfold start_dir; by rewrite Habs).
    rewrite Hcomp in Hplain. rewrite forallb_app in Hplain.
    apply andb_true_iff in Hplain as [Hph Hpt]. cbn in Hpt.
    rewrite andb_true_r in Hpt.
    destruct (path_exists head fs) eqn:Hex; cbn [negb].
    + apply (Hlast fs); [done | done | done | | by left].
      unfold path_exists in Hex.
      destruct (lookup_path head fs) as [e|c'] eqn:Hl'; [done|].
      unfold lookup_path in Hl' |- *. rewrite Hh in Hl'. rewrite Hd.
      fold (start_dir fs head) in Hl'. fold (start_dir fs d).
      rewrite Hsd in Hl'.
      pose proof (walk_plain _ _ _ _ Hph Hl') as ->.
      rewrite Hcomp, walk_app, Hl'. cbn [walk].
      pose proof (Hfile (List.length (components head))) as Hnf.
      rewrite Hcomp, take_app_length in Hnf.
      destruct (node_at fs (start_dir fs d ++ components head)) as [[|x]|];
        [|done..].
      by rewrite (step_plain _ _ Hpt), <- app_assoc.
    + assert (ends_with_sep head = false) as Hendh.
      { destruct Hshape as [Hall|]; [|done].
        by rewrite (path_exists_all_sep head fs Hh Hall) in Hex. }
      destruct (IH head fs) as (fs' & Hmk & Hcwd & Hl' & Hn' & Hpres);
        [lia | done | done | done | by rewrite Hsd | |].
      { intros k0. rewrite Hsd.
        destruct (take_prefix_snoc (components head) t k0) as (k' & _ & ->).
        rewrite <- Hcomp. apply Hfile. }
      rewrite Hmk.
      assert (String.eqb t "." = false) as ->.
      { unfold plain in Hpt. by destruct (String.eqb t "."). }
      rewrite Hsd in Hl', Hn', Hpres.
      assert (forall c, nodes fs' !! c = nodes fs !! c
                 \/ ((exists k, c = start_dir fs d ++ take k (components d))
                     /\ nodes fs' !! c = Some Dir)) as Hpres'.
      { intros c. destruct (Hpres c) as [Heq | [[k0 ->] Hdir]]; [by left|].
        right. split; [|done].
        destruct (take_prefix_snoc (components head) t k0) as (k' & _ & ->).
        exists k'. by rewrite Hcomp. }
      apply (Hlast fs'); [done | | | | done].
      * intros [|y c]; [done|]. cbn [node_at]. intros Hc.
        destruct (Hpres' (y :: c)) as [-> | [_ ->]]; done.
      * pose proof (Hfile (List.length (components d))) as Hnf.
        rewrite take_ge in Hnf by lia.
        destruct (start_dir fs d ++ components d) as [|y c] eqn:E.
        { rewrite Hcomp in E. by destruct (start_dir fs d), (components head). }
        cbn [node_at] in *.
        destruct (Hpres' (y :: c)) as [-> | [_ ->]]; done.
      * unfold lookup_path in Hl' |- *. rewrite Hh in Hl'. rewrite Hd.
        rewrite Habs in Hl'. unfold start_dir in *. rewrite Hcwd in Hl'.
        rewrite Hcwd.
        rewrite Hcomp, walk_app, Hl'. cbn [walk]. rewrite Hn'.
        by rewrite (step_plain _ _ Hpt), <- app_assoc.
  - rewrite (path_split_no_sep d Hr), Hd. cbn [is_empty negb andb].
    assert (components d = [d]) as Hcomp.
    { unfold components. rewrite (split_sep_no_sep d Hr). cbn. by rewrite Hd. }
    rewrite Hcomp in Hplain. cbn in Hplain. rewrite andb_true_r in Hplain.
    apply (Hlast fs); [done | done | done | | by left].
    unfold lookup_path. rewrite Hd. fold (start_dir fs d).
    rewrite Hcomp. cbn [walk]. rewrite Hstart.
    by rewrite (step_plain _ _ Hplain).
Qed.

Lemma makedirs_creates d fs :
  is_empty d = false ->
  all_char sep d = true \/ ends_with_sep d = false ->
  forallb plain (components d) = true ->
  node_at fs (start_dir fs d) = Some Dir ->
  (forall k, is_file (node_at fs (start_dir fs d ++ take k (components d)))
             = false) ->
  exists fs1,
    makedirs d fs = inr fs1
    /\ cwd fs1 = cwd fs
    /\ lookup_path d fs1 = inr (start_dir fs d ++ components d)
    /\ node_at fs1 (start_dir fs d ++ components d) = Some Dir
    /\ forall c, nodes fs1 !! c = nodes fs !! c
                 \/ ((exists k, c = start_dir fs d ++ take k (components d))
                     /\ nodes fs1 !! c = Some Dir).
Proof.
  intros Hd [Hall|Hend] Hplain Hstart Hfile.
  - assert (lookup_path d fs = inr (start_dir fs d ++ components d)) as Hl.
    { unfold lookup_path, start_dir. rewrite Hd, (components_all_sep d Hall).
      destruct d as [|a d]; [done|]. cbn in Hall |- *.
      by destruct (Ascii.eqb a sep). }
    assert (node_at fs (start_dir fs d ++ components d) = Some Dir) as Hn.
    { rewrite (components_all_sep d Hall), app_nil_r. done. }
    exists fs. split_and!; auto.
    apply makedirs_existing. unfold path_isdir. by rewrite Hl, Hn.
  - apply makedirs_fuel_creates; auto.
Qed.

Lemma write_file_at p fs c data :
  lookup_path p fs = inr c -> ends_with_sep p = false ->
  is_dir (node_at fs c) = false ->
  write_file p data fs = inr (mkFS (cwd fs) (<[c := File data]> (nodes fs))).
Proof.
  intros Hl Hend Hn. unfold write_file. rewrite Hl, Hend.
  by destruct (node_at fs c) as [[|x]|].
Qed.

(** Storing a file changes the existence of no path that resolves
    elsewhere. *)
Lemma walk_insert_file_inv fs c d cur l r :
  walk (mkFS (cwd fs) (<[c := File d]> (nodes fs))) cur l = inr r ->
  walk fs cur l = inr r.
Proof.
  apply walk_mono. intros [|y c0]; [done|]. cbn [node_at nodes].
  destruct (decide (c = y :: c0)) as [->|Hne];
    [by rewrite lookup_insert_eq | by rewrite lookup_insert_ne].
Qed.

Lemma path_exists_insert_file fs c d q :
  node_at fs c <> Some Dir -> lookup_path q fs <> inr c ->
  path_exists q (mkFS (cwd fs) (<[c := File d]> (nodes fs)))
  = path_exists q fs.
Proof.
  intros Hc Hq. unfold path_exists, lookup_path in *. cbn [cwd].
  destruct (is_empty q); [done|].
  destruct (walk fs _ _) as [e|r] eqn:Hw.
  - destruct (walk (mkFS _ _) _ _) as [e'|r'] eqn:Hw'; [done|].
    apply walk_insert_file_inv in Hw'. congruence.
  - rewrite (walk_insert_file fs c d _ _ r Hc Hw).
    assert (r <> c) as Hne by congruence.
    destruct r as [|y r]; [done|]. cbn [node_at nodes].
    by rewrite lookup_insert_ne.
Qed.

(* ===================================================================== *)
(** ** The script as a whole *)
(* ===================================================================== *)

Section Script.

Context (env : Env).

Lemma import_guard_ok w :
  imports_available env = true -> import_guard env w = (Ret tt, w).
Proof.
  unfold imports_available, import_guard. cbn.
  destruct (module_available env "PIL"); [|done].
  destruct (module_available env "sys"); [|done].
  by destruct (module_available env "os").
Qed.

Lemma import_guard_no_pil w :
  module_available env "PIL" = false ->
  import_guard env w =
  (Raise (NameError "sys"),
   mkWorld (w_fs w) (w_stdout w ++ [pil_diagnostic]) (w_image w)).
Proof. unfold import_guard. cbn. by intros ->. Qed.

Lemma main_usage argv w :
  List.length argv <> 2%nat ->
  main env argv w =
  (Raise (SystemExit 1),
   mkWorld (w_fs w) (w_stdout w ++ [usage]) (w_image w)).
Proof.
  intros Hlen. unfold main.
  destruct (Nat.eqb_spec (List.length argv) 2); [done|]. reflexivity.
Qed.

Lemma main_run script_name output_path w :
  main env [script_name; output_path] w =
  match makedirs (dirname output_path) (w_fs w) with
  | inl e => (Raise e, w)
  | inr fs1 =>
      let im := canvas env fs1 540 300 in
      match write_file output_path (PNG im) fs1 with
      | inl e => (Raise e, mkWorld fs1 (w_stdout w) (Some im))
      | inr fs2 =>
          (Ret tt,
           mkWorld fs2
             (w_stdout w
              ++ [ created_prefix +:+ output_path;
                   done_prefix +:+ output_path ])
             (Some im))
      end
  end.
Proof.
  unfold main. cbn [List.length Nat.eqb negb].
  unfold bind at 1. cbn [ret]. unfold bind at 1. cbn [argv_get nth_error ret].
  unfold bind at 1. unfold os_call at 1.
  destruct (makedirs (dirname output_path) (w_fs w)) as [e|fs1]; [done|].
  unfold bind at 1. rewrite create_dmg_background_run. cbn [w_fs w_stdout].
  destruct (write_file _ _ fs1) as [e|fs2]; [done|].
  unfold print. cbn [w_fs w_stdout w_image]. by rewrite <- app_assoc.
Qed.

Lemma drawn_canvas output_path w :
  drawn env output_path w = img_ops (canvas env (w_fs w) 540 300).
Proof.
  unfold drawn, composed_image. rewrite create_dmg_background_run. cbn zeta.
  by destruct (write_file _ _ _).
Qed.

End Script.

(** Claim C1.  On the default canvas, for every scanline [y] in
    [0, 300) the gradient pass draws, as its call number [y], a line from
    [(0, y)] to [(540, y)] in the colour [(g - 5, g, g)] with
    [g = int(240 + 15 * y / 300)]; that segment covers every pixel of the
    scanline; [g] does not decrease as [y] grows up to 299; and the colours
    of the scanlines 0 and 299 differ. *)
Theorem gradient_pass_scanlines (env : Env) (output_path : string)
    (w : world) (y : Z) :
  0 <= y < 300 ->
  let g := gradient_value y 300 in
  let ops := drawn env output_path w in
  nth_error ops (Z.to_nat y) = Some (Line [(0, y); (540, y)] (g - 5, g, g) 0)
  /\ (forall x, 0 <= x < 540 -> on_hline [(0, y); (540, y)] (x, y))
  /\ (forall y', y <= y' < 300 -> g <= gradient_value y' 300)
  /\ (exists c0 c1,
        nth_error ops 0 = Some (Line [(0, 0); (540, 0)] c0 0)
        /\ nth_error ops 299 = Some (Line [(0, 299); (540, 299)] c1 0)
        /\ c0 <> c1).
Proof.
  intros Hy g ops.
  assert (forall k, (k < 300)%nat ->
            nth_error ops k = Some (gradient_line 540 300 (Z.of_nat k))) as Hnth.
  { intros k Hk. unfold ops. rewrite drawn_canvas. cbn [canvas img_ops].
    rewrite nth_error_app1 by (rewrite length_map, py_range_length; lia).
    apply map_nth_error, py_range_nth. lia. }
  split_and!.
  - rewrite Hnth by lia. unfold gradient_line. by rewrite Z2Nat.id by lia.
  - intros x Hx. cbn. lia.
  - intros y' Hy'. unfold g. rewrite !gradient_value_300 by lia.
    apply Z.add_le_mono_l, Z.div_le_mono; lia.
  - eexists _, _. split_and!; [by apply (Hnth 0%nat); lia
                              | by apply (Hnth 299%nat); lia |].
    cbn. rewrite !gradient_value_300 by lia. done.
Qed.

Lemma gradient_pass_scanlines_witness :
  nth_error (drawn env_plain "out/bg.png" (initial_world fs_home)) 150
  = Some (Line [(0, 150); (540, 150)] (242, 247, 247) 0).
Proof.
  destruct (gradient_pass_scanlines env_plain "out/bg.png"
              (initial_world fs_home) 150 ltac:(lia)) as [H _].
  exact H.
Defined.

Lemma floor_half_centered (d : Z) :
  (Qabs (inject_Z d / 2 - inject_Z (d / 2)) <= 1)%Q.
Proof.
  pose proof (Z.div_mod d 2 ltac:(lia)) as Hdm.
  pose proof (Z.mod_pos_bound d 2 ltac:(lia)) as Hm.
  unfold Qle, Qabs, Qminus, Qplus, Qdiv, Qmult, Qinv, Qopp, inject_Z.
  cbn [Qnum Qden]. lia.
Qed.

(** Claim C2.  Whatever bounding boxes the measurement reports, the
    title and the instruction text are drawn (calls 300 and 301) at an x
    coordinate within one pixel of [(540 - textWidth) / 2], computed over
    the rationals. *)
Theorem text_blocks_centered (env : Env) (output_path : string) (w : world) :
  let fonts := selected_fonts env (w_fs w) in
  let title_width := bbox_width (text_bbox env fonts.1 title_text) in
  let instruction_width :=
    bbox_width (text_bbox env fonts.2 instruction_text) in
  exists title_x instruction_x,
    nth_error (drawn env output_path w) 300
    = Some (Text (title_x, 30) title_text (70, 130, 180) fonts.1)
    /\ nth_error (drawn env output_path w) 301
       = Some (Text (instruction_x, 65) instruction_text (80, 80, 80) fonts.2)
    /\ (Qabs (inject_Z (540 - title_width) / 2 - inject_Z title_x) <= 1)%Q
    /\ (Qabs (inject_Z (540 - instruction_width) / 2 - inject_Z instruction_x)
        <= 1)%Q.
Proof.
  intros fonts title_width instruction_width.
  exists ((540 - title_width) / 2), ((540 - instruction_width) / 2).
  rewrite drawn_canvas. cbn [canvas img_ops].
  rewrite !nth_error_app2 by (rewrite length_map, py_range_length; lia).
  rewrite length_map, py_range_length.
  split_and!; [done | done | apply floor_half_centered..].
Qed.

Lemma probe_fonts_skip env fs out im sk rest fonts :
  forallb (skipped env fs) sk = true ->
  probe_fonts env (sk ++ rest) fonts (mkWorld fs out im) =
  probe_fonts env rest fonts (mkWorld fs out im).
Proof.
  induction sk as [|p sk IH]; [done|]. cbn [forallb app probe_fonts].
  intros [Hp Hsk]%andb_prop. unfold bind at 1, os_path_exists at 1.
  cbn [w_fs]. unfold skipped in Hp.
  destruct (path_exists p fs); [|by apply IH].
  unfold truetype at 1. destruct (font_load env p 24); [done| |done].
  cbn. by apply IH.
Qed.

(** Claim C3, as amended.  Font resolution always returns a pair of
    handles and changes nothing else.  Past the candidates that are
    skipped (missing file, or [OSError] at size 24), the first remaining
    candidate that exists serves both handles when it loads at 24 and at
    14, and the default font serves both when one of its loads raises an
    exception other than an [OSError]; when every candidate is skipped the
    default font serves both. *)
Theorem font_resolution (env : Env) (w : world)
    (skipped_paths rest : list string) :
  font_paths = skipped_paths ++ rest ->
  forallb (skipped env (w_fs w)) skipped_paths = true ->
  (exists fonts, resolve_fonts env w = (Ret fonts, w))
  /\ match rest with
     | [] => resolve_fonts env w = (Ret default_fonts, w)
     | p :: _ =>
         path_exists p (w_fs w) = true ->
         (font_load env p 24 = Loaded /\ font_load env p 14 = Loaded ->
          resolve_fonts env w
          = (Ret (Some (TrueType p 24), Some (TrueType p 14)), w))
         /\ (font_load env p 24 = LoadOtherError
             \/ (font_load env p 24 = Loaded
                 /\ font_load env p 14 = LoadOtherError) ->
             resolve_fonts env w = (Ret default_fonts, w))
     end.
Proof.
  intros Hpaths Hsk. split; [eexists; apply resolve_fonts_run|].
  destruct w as [fs out im]. cbn [w_fs] in *.
  unfold resolve_fonts, try_except, bind. rewrite Hpaths.
  rewrite (probe_fonts_skip env fs out im _ rest _ Hsk).
  destruct rest as [|p rest]; [done|].
  intros Hex. cbn [probe_fonts]. unfold bind, os_path_exists. cbn [w_fs].
  rewrite Hex. unfold truetype.
  split.
  - by intros [-> ->].
  - by intros [-> | [-> ->]].
Qed.

Lemma font_resolution_witness :
  resolve_fonts env_helvetica_partial (initial_world fs_home)
  = (Ret default_fonts, initial_world fs_home)
  /\ resolve_fonts env_plain (initial_world fs_fonts)
     = (Ret (Some (TrueType "/System/Library/Fonts/Helvetica.ttc" 24),
             Some (TrueType "/System/Library/Fonts/Helvetica.ttc" 14)),
        initial_world fs_fonts).
Proof.
  split.
  - exact (proj2 (font_resolution env_helvetica_partial (initial_world fs_home)
                    font_paths [] eq_refl eq_refl)).
  - refine (proj1 (proj2 (font_resolution env_plain (initial_world fs_fonts)
                            [] font_paths eq_refl eq_refl) eq_refl) _).
    split; reflexivity.
Defined.

(** Claim C3 as stated fails: when loading Helvetica raises an exception
    that is not an [OSError], the default font is used although Arial
    exists and loads at both sizes. *)
Lemma font_resolution_not_first_loadable :
  ~ (forall env w,
       resolve_fonts env w = (Ret (spec_selected_fonts env (w_fs w)), w)).
Proof.
  intros H. specialize (H env_helvetica_error (initial_world fs_fonts)).
  vm_compute in H. discriminate H.
Qed.

(** The probing loop leaves [title_font] bound and [instruction_font]
    unbound when a file loads at size 24 and fails at size 14. *)
Example partial_load_mixes_handles :
  resolve_fonts env_helvetica_partial (initial_world fs_fonts)
  = (Ret (Some (TrueType "/System/Library/Fonts/Helvetica.ttc" 24),
          None),
     initial_world fs_fonts).
Proof. vm_compute. reflexivity. Qed.

(** Claim C4 as stated fails: the first gradient line ends at
    [(540, 0)], outside [0, 540) x [0, 300). *)
Lemma gradient_line_leaves_canvas :
  ~ (forall env output_path w,
       Forall (fun op => Forall (in_canvas 540 300) (coords op))
         (drawn env output_path w)).
Proof.
  intros H. specialize (H env_plain "bg.png" (initial_world fs_home)).
  rewrite drawn_canvas in H. cbn [canvas img_ops] in H.
  apply Forall_app in H as [H _].
  change (py_range 300) with (0 :: map Z.of_nat (seq 1 299)) in H.
  cbn [map] in H. apply Forall_cons in H as [H _].
  cbn [gradient_line coords] in H.
  apply Forall_cons in H as [_ H]. apply Forall_cons in H as [[H _] _].
  cbn in H. lia.
Qed.

Lemma tail_y_bounds (i : Z) : 0 <= i < 20 -> 210 <= tail_y 200 i <= 214.
Proof.
  intros Hi. rewrite tail_y_floor by lia.
  assert (0 <= i * i / 80 <= 4); [|lia]. split.
  - apply Z.div_pos; nia.
  - apply Z.lt_succ_r, Z.div_lt_upper_bound; nia.
Qed.

Ltac each_point :=
  repeat first [ apply List.Forall_nil
               | apply List.Forall_cons
               | progress cbn [coords] ].

(** Claim C4, as amended.  When the measured widths of the title and of
    the instruction text lie in [0, 540], the drawing calls on the default
    canvas are 300 gradient lines from [(0, y)] to [(540, y)] with [y] in
    [0, 300), followed by calls all of whose coordinates lie in
    [0, 540) x [0, 300). *)
Theorem drawing_coordinates_in_canvas (env : Env) (output_path : string)
    (w : world) :
  let fonts := selected_fonts env (w_fs w) in
  0 <= bbox_width (text_bbox env fonts.1 title_text) <= 540 ->
  0 <= bbox_width (text_bbox env fonts.2 instruction_text) <= 540 ->
  exists gradient later,
    drawn env output_path w = gradient ++ later
    /\ List.length gradient = 300%nat
    /\ Forall (fun op => exists y c,
                 op = Line [(0, y); (540, y)] c 0 /\ 0 <= y < 300) gradient
    /\ Forall (fun op => Forall (in_canvas 540 300) (coords op)) later.
Proof.
  intros fonts Htitle Hinstr. rewrite drawn_canvas. cbn [canvas img_ops].
  eexists _, _. split_and!; [reflexivity | ..].
  - by rewrite length_map, py_range_length.
  - apply List.Forall_forall. intros op (y & <- & Hy)%in_map_iff.
    apply py_range_bounds in Hy. by eexists _, _.
  - fold fonts. unfold overlay. apply Forall_app. split; [|apply Forall_app; split].
    + assert (0 <= (540 - bbox_width (text_bbox env fonts.1 title_text)) / 2
              < 540) as Ht
        by (split; [apply Z.div_pos | apply Z.div_lt_upper_bound]; lia).
      assert (0 <= (540 - bbox_width (text_bbox env fonts.2 instruction_text)) / 2
              < 540) as Hi
        by (split; [apply Z.div_pos | apply Z.div_lt_upper_bound]; lia).
      each_point; unfold in_canvas; cbn [fst snd]; lia.
    + apply List.Forall_forall. intros op (i & <- & Hi)%in_map_iff.
      apply py_range_bounds in Hi. pose proof (tail_y_bounds i Hi).
      unfold tail_ellipse. each_point; unfold in_canvas; cbn [fst snd]; lia.
    + each_point. unfold in_canvas. cbn [fst snd]. lia.
Qed.

Lemma drawing_coordinates_in_canvas_witness :
  exists gradient later,
    drawn env_plain "out/bg.png" (initial_world fs_home) = gradient ++ later
    /\ List.length gradient = 300%nat
    /\ Forall (fun op => exists y c,
                 op = Line [(0, y); (540, y)] c 0 /\ 0 <= y < 300) gradient
    /\ Forall (fun op => Forall (in_canvas 540 300) (coords op)) later.
Proof.
  apply (drawing_coordinates_in_canvas env_plain "out/bg.png"
           (initial_world fs_home)); vm_compute; split; discriminate.
Defined.

(** Claim C6.  With no positional argument, or with more than one, the
    run prints the usage line, ends with [sys.exit(1)], allocates no image
    and leaves the file system as it was. *)
Theorem usage_on_wrong_argument_count (env : Env) (script_name : string)
    (args : list string) (fs : FS) :
  imports_available env = true ->
  args = [] \/ (1 < List.length args)%nat ->
  run env (script_name :: args) fs
  = (Raise (SystemExit 1), mkWorld fs [usage] None)
  /\ exit_status (run env (script_name :: args) fs).1 <> 0.
Proof.
  intros Himp Hargs.
  assert (run env (script_name :: args) fs
          = (Raise (SystemExit 1), mkWorld fs [usage] None)) as ->.
  { unfold run, script, bind. rewrite import_guard_ok by done.
    rewrite main_usage; [done|]. destruct Hargs as [-> | Hlen]; simpl; lia. }
  done.
Qed.

Lemma usage_on_wrong_argument_count_witness :
  run env_plain ["create_background.py"] fs_home
  = (Raise (SystemExit 1), mkWorld fs_home [usage] None)
  /\ run env_plain ["create_background.py"; "a.png"; "b.png"] fs_home
     = (Raise (SystemExit 1), mkWorld fs_home [usage] None).
Proof.
  split.
  - apply (usage_on_wrong_argument_count env_plain "create_background.py" []
             fs_home); [reflexivity | by left].
  - apply (usage_on_wrong_argument_count env_plain "create_background.py"
             ["a.png"; "b.png"] fs_home); [reflexivity | right; simpl; lia].
Defined.

(** Claim C7.  Given one positional argument that names a file which can
    be created together with its missing parent directories
    ([can_create]), [os.makedirs] succeeds and leaves the parent a
    directory, creating it and its missing ancestors where they did not
    exist; the image is then written to the output path, and the run ends
    normally with status 0 after printing both confirmation lines, which
    end with the output path.  Afterwards the parent is a directory and the
    file holds the PNG of the 540 x 300 image that was drawn. *)
Theorem main_creates_parent_directory (env : Env)
    (script_name output_path : string) (fs : FS) :
  imports_available env = true ->
  can_create fs output_path = true ->
  exists fs1 fs2,
    makedirs (dirname output_path) fs = inr fs1
    /\ path_isdir (dirname output_path) fs1 = true
    /\ write_file output_path (PNG (canvas env fs1 540 300)) fs1 = inr fs2
    /\ run env [script_name; output_path] fs
       = (Ret tt,
          mkWorld fs2
            [ created_prefix +:+ output_path;
              done_prefix +:+ output_path ]
            (Some (canvas env fs1 540 300)))
    /\ exit_status (run env [script_name; output_path] fs).1 = 0
    /\ path_isdir (dirname output_path) fs2 = true
    /\ read_file output_path fs2 = Some (PNG (canvas env fs1 540 300)).
Proof.
  intros Himp Hcan. unfold can_create in Hcan.
  apply andb_true_iff in Hcan as [Hcan Htarget].
  apply andb_true_iff in Hcan as [Hcan Hfiles].
  apply andb_true_iff in Hcan as [Hcan Hstart].
  apply andb_true_iff in Hcan as [Hcan Hplain].
  apply andb_true_iff in Hcan as [Hcan Hend].
  apply andb_true_iff in Hcan as [_ Hsep].
  destruct (rfind sep output_path) as [k|] eqn:Hr; [clear Hsep | done].
  apply negb_true_iff in Hend, Htarget.
  destruct (path_split_components output_path k Hr Hend)
    as (head & t & Hs & Ht & Hh & Habs & Hcomp & Hshape & _).
  assert (dirname output_path = head) as Hdn
    by (by rewrite dirname_split, Hs).
  rewrite Hdn.
  assert (start_dir fs head = start_dir fs output_path) as Hsd
    by (unfold start_dir; by rewrite Habs).
  rewrite Hcomp in Hplain. rewrite forallb_app in Hplain.
  apply andb_true_iff in Hplain as [Hph Hpt]. cbn in Hpt.
  rewrite andb_true_r in Hpt.
  destruct (makedirs_creates head fs) as (fs1 & Hmk & Hcwd & Hl & Hn & Hpres);
    [done | done | done | | |].
  { rewrite Hsd. by destruct (node_at fs (start_dir fs output_path)) as [[|x]|]. }
  { intros k0. rewrite Hsd.
    destruct (take_prefix_snoc (components head) t k0) as (k' & Hk & ->).
    rewrite <- Hcomp. rewrite forallb_forall in Hfiles.
    apply negb_true_iff, Hfiles, in_seq. rewrite Hcomp, length_app. cbn. lia. }
  rewrite Hsd in Hl, Hn, Hpres.
  assert (lookup_path output_path fs1
          = inr (start_dir fs output_path ++ components output_path)) as Hlp.
  { unfold lookup_path in Hl |- *. rewrite Hh, Habs, Hcwd in Hl.
    assert (is_empty output_path = false) as -> by (by destruct output_path).
    rewrite Hcwd. fold (start_dir fs output_path) in Hl |- *.
    rewrite Hcomp, walk_app, Hl. cbn [walk]. rewrite Hn.
    by rewrite (step_plain _ _ Hpt), <- app_assoc. }
  assert (is_dir (node_at fs1 (start_dir fs output_path
                                ++ components output_path)) = false) as Hnd.
  { destruct (start_dir fs output_path ++ components output_path)
      as [|y c] eqn:E.
    { rewrite Hcomp in E.
      by destruct (start_dir fs output_path), (components head). }
    cbn [node_at] in *.
    destruct (Hpres (y :: c)) as [-> | [[k0 Hk0] _]]; [done|].
    exfalso. rewrite <- E, Hcomp in Hk0. apply app_inv_head in Hk0.
    apply (f_equal List.length) in Hk0.
    rewrite length_app, length_take in Hk0. cbn in Hk0. lia. }
  pose proof (write_file_at _ _ _ (PNG (canvas env fs1 540 300)) Hlp Hend Hnd)
    as Hwrite.
  exists fs1. eexists.
  assert (path_isdir head fs1 = true) as Hd1.
  { unfold path_isdir. by rewrite Hl, Hn. }
  assert (run env [script_name; output_path] fs
          = (Ret tt,
             mkWorld (mkFS (cwd fs1)
                        (<[start_dir fs output_path ++ components output_path
                           := File (PNG (canvas env fs1 540 300))]> (nodes fs1)))
               [ created_prefix +:+ output_path;
                 done_prefix +:+ output_path ]
               (Some (canvas env fs1 540 300)))) as Hrun.
  { unfold run, script, bind. rewrite import_guard_ok by done.
    rewrite main_run. cbn [initial_world w_fs w_stdout].
    by rewrite Hdn, Hmk, Hwrite. }
  destruct (write_file_parent_isdir _ _ _ _ k Hr Hwrite) as [_ Hd2].
  rewrite Hdn in Hd2. rewrite Hrun.
  split_and!; try done.
  by apply write_file_read in Hwrite.
Qed.

Lemma main_creates_parent_directory_witness :
  path_exists "build" fs_home = false
  /\ exists fs1 fs2,
       makedirs "build/dmg" fs_home = inr fs1
       /\ path_isdir "build/dmg" fs1 = true
       /\ (run env_plain ["create_background.py"; "build/dmg/bg.png"] fs_home).1
          = Ret tt
       /\ w_fs (run env_plain ["create_background.py"; "build/dmg/bg.png"]
                  fs_home).2 = fs2
       /\ path_isdir "build/dmg" fs2 = true
       /\ read_file "build/dmg/bg.png" fs2
          = Some (PNG (canvas env_plain fs1 540 300)).
Proof.
  split; [vm_compute; reflexivity|].
  destruct (main_creates_parent_directory env_plain "create_background.py"
              "build/dmg/bg.png" fs_home)
    as (fs1 & fs2 & Hmk & Hd1 & _ & Hrun & _ & Hd2 & Hread);
    [vm_compute; reflexivity | vm_compute; reflexivity |].
  exists fs1, fs2.
  split; [exact Hmk|]. split; [exact Hd1|].
  split; [exact (f_equal fst Hrun)|].
  split; [exact (f_equal (fun r => w_fs r.2) Hrun)|].
  split; [exact Hd2 | exact Hread].
Defined.

(** Claim C8.  When Pillow cannot be imported the run prints the
    diagnostic and ends at once with a non-zero status ([sys] is not yet
    bound, so [sys.exit(1)] raises [NameError]), with no image allocated
    and the file system untouched. *)
Theorem missing_pillow_is_fatal (env : Env) (argv : list string) (fs : FS) :
  module_available env "PIL" = false ->
  run env argv fs
  = (Raise (NameError "sys"), mkWorld fs [pil_diagnostic] None)
  /\ exit_status (run env argv fs).1 <> 0.
Proof.
  intros Hpil.
  assert (run env argv fs
          = (Raise (NameError "sys"), mkWorld fs [pil_diagnostic] None)) as ->.
  { unfold run, script, bind. by rewrite import_guard_no_pil. }
  done.
Qed.

Lemma missing_pillow_is_fatal_witness :
  run env_no_pil ["create_background.py"; "build/dmg/bg.png"] fs_home
  = (Raise (NameError "sys"), mkWorld fs_home [pil_diagnostic] None).
Proof.
  apply (missing_pillow_is_fatal env_no_pil
           ["create_background.py"; "build/dmg/bg.png"] fs_home).
  reflexivity.
Defined.

(** Claim C9 as stated fails: for [i = 1] the ellipse is drawn at
    [y = 210], not at [210 + 5 * (1/20)^2]. *)
Lemma tail_y_is_truncated :
  nth_error (drawn env_plain "bg.png" (initial_world fs_home)) 309
  = Some (Ellipse (46, 210, 50, 218) (200, 200, 200))
  /\ ~ (inject_Z 210 == 210 + 5 * (inject_Z 1 / 20) ^ 2)%Q.
Proof.
  split.
  - rewrite drawn_canvas. vm_compute. reflexivity.
  - intros H. vm_compute in H. discriminate H.
Qed.

(** Claim C9, as amended.  For every [i] in [0, 20) the tail ellipse
    number [i] (call [308 + i]) has its top at
    [tail_y = 210 + int(5 * (i/20)^2)], the quadratic offset truncated to a
    whole pixel: it is at most the exact value and less than one pixel
    below it, and it does not decrease as [i] grows. *)
Theorem tail_follows_truncated_parabola (env : Env) (output_path : string)
    (w : world) (i : Z) :
  0 <= i < 20 ->
  let y := tail_y 200 i in
  nth_error (drawn env output_path w) (308 + Z.to_nat i)
  = Some (Ellipse (45 + i, y, 45 + i + 4, y + 8) (200, 200, 200))
  /\ y = 210 + py_int (5 * (inject_Z i / 20) ^ 2)%Q
  /\ (inject_Z y <= 210 + 5 * (inject_Z i / 20) ^ 2)%Q
  /\ (210 + 5 * (inject_Z i / 20) ^ 2 < inject_Z y + 1)%Q
  /\ (forall j, i <= j < 20 -> y <= tail_y 200 j).
Proof.
  intros Hi y. split_and!.
  - rewrite drawn_canvas. cbn [canvas img_ops].
    rewrite nth_error_app2 by (rewrite length_map, py_range_length; lia).
    rewrite length_map, py_range_length. unfold overlay.
    replace (308 + Z.to_nat i - Z.to_nat 300)%nat with (8 + Z.to_nat i)%nat
      by lia.
    cbn [app nth_error Nat.add].
    rewrite nth_error_app1 by (rewrite length_map, py_range_length; lia).
    erewrite map_nth_error; [|apply py_range_nth; lia].
    unfold tail_ellipse. by rewrite Z2Nat.id by lia.
  - unfold y, tail_y. lia.
  - unfold y. rewrite tail_y_floor by lia.
    pose proof (Z.div_mod (i * i) 80 ltac:(lia)) as Hdm.
    pose proof (Z.mod_pos_bound (i * i) 80 ltac:(lia)) as Hm.
    unfold Qle. cbn. lia.
  - unfold y. rewrite tail_y_floor by lia.
    pose proof (Z.div_mod (i * i) 80 ltac:(lia)) as Hdm.
    pose proof (Z.mod_pos_bound (i * i) 80 ltac:(lia)) as Hm.
    unfold Qlt. cbn. lia.
  - intros j Hj. unfold y. rewrite !tail_y_floor by lia.
    apply Z.add_le_mono_l, Z.div_le_mono; nia.
Qed.

Lemma tail_follows_truncated_parabola_witness :
  nth_error (drawn env_plain "bg.png" (initial_world fs_home)) 327
  = Some (Ellipse (64, 214, 68, 222) (200, 200, 200)).
Proof.
  destruct (tail_follows_truncated_parabola env_plain "bg.png"
              (initial_world fs_home) 19 ltac:(lia)) as [H _].
  exact H.
Defined.

(** Claim C10.  For an output path without a separator, [dirname] is
    the empty string, [makedirs] of it raises [FileNotFoundError], and the
    run ends with that exception (a non-zero status) before an image is
    allocated, with nothing printed and the file system unchanged. *)
Theorem bare_filename_aborts (env : Env) (script_name output_path : string)
    (fs : FS) :
  imports_available env = true ->
  rfind sep output_path = None ->
  dirname output_path = EmptyString
  /\ makedirs (dirname output_path) fs = inl FileNotFoundError
  /\ run env [script_name; output_path] fs
     = (Raise FileNotFoundError, initial_world fs)
  /\ exit_status (run env [script_name; output_path] fs).1 <> 0.
Proof.
  intros Himp Hr. pose proof (dirname_no_sep _ Hr) as Hd.
  assert (run env [script_name; output_path] fs
          = (Raise FileNotFoundError, initial_world fs)) as Hrun.
  { unfold run, script, bind. rewrite import_guard_ok by done.
    rewrite main_run. cbn [initial_world w_fs]. by rewrite Hd, makedirs_empty. }
  rewrite Hrun, Hd. by split_and!.
Qed.

Lemma bare_filename_aborts_witness :
  writable "out.png" fs_home = true
  /\ run env_plain ["create_background.py"; "out.png"] fs_home
     = (Raise FileNotFoundError, initial_world fs_home).
Proof.
  split; [reflexivity|].
  apply (bare_filename_aborts env_plain "create_background.py" "out.png"
           fs_home); reflexivity.
Defined.

(* ===================================================================== *)
(** ** Further properties of the script *)
(* ===================================================================== *)

Lemma write_file_error p data fs e :
  write_file p data fs = inl e -> is_OSError e = true.
Proof.
  unfold write_file, lookup_path. destruct (is_empty p); [by intros [= <-]|].
  destruct (walk _ _ _) as [e'|c] eqn:Hw.
  - intros [= <-]. by destruct (walk_error _ _ _ _ Hw) as [-> | ->].
  - destruct (ends_with_sep p); [by intros [= <-]|].
    destruct (node_at fs c) as [[|d]|]; [by intros [= <-] | done..].
Qed.

Lemma writable_false_write_file p data fs :
  writable p fs = false -> exists e, write_file p data fs = inl e.
Proof.
  unfold writable, write_file. destruct (lookup_path p fs) as [e|c]; [eauto|].
  destruct (ends_with_sep p); [eauto|].
  destruct (node_at fs c) as [[|d]|]; [eauto|done..].
Qed.

Lemma makedirs_error name fs e :
  makedirs name fs = inl e -> is_OSError e = true.
Proof. apply makedirs_fuel_error. lia. Qed.

(** The import guard either passes and changes nothing, or prints the
    diagnostic and raises. *)
Lemma import_guard_cases env w :
  import_guard env w = (Ret tt, w)
  \/ exists e,
       import_guard env w
       = (Raise e, mkWorld (w_fs w) (w_stdout w ++ [pil_diagnostic]) (w_image w))
       /\ (e = NameError "sys" \/ e = SystemExit 1).
Proof.
  unfold import_guard. cbn.
  destruct (module_available env "PIL"); [|right; eauto].
  destruct (module_available env "sys"); [|right; eauto].
  destruct (module_available env "os"); [by left | right; eauto].
Qed.

Lemma length_two {A} (l : list A) :
  List.length l = 2%nat -> exists a b, l = [a; b].
Proof. destruct l as [|a [|b [|c l]]]; try done. eauto. Qed.

(** Every way a run can end. *)
Lemma run_cases env argv fs :
  (exists e, run env argv fs = (Raise e, mkWorld fs [pil_diagnostic] None)
             /\ (e = NameError "sys" \/ e = SystemExit 1))
  \/ (List.length argv <> 2%nat
      /\ run env argv fs = (Raise (SystemExit 1), mkWorld fs [usage] None))
  \/ (exists script_name p,
        argv = [script_name; p]
        /\ run env argv fs = main env argv (initial_world fs)).
Proof.
  unfold run, script, bind.
  destruct (import_guard_cases env (initial_world fs)) as [-> | (e & -> & He)];
    [|left; eauto].
  right. destruct (Nat.eq_dec (List.length argv) 2%nat) as [Hlen|Hlen].
  - right. destruct (length_two _ Hlen) as (a & b & ->). eauto.
  - left. split; [done|]. by rewrite main_usage.
Qed.

(** Extra X1.  A run that ends with status 0 was given exactly one
    positional argument, created the parent directory with [makedirs],
    wrote the PNG of a 540 x 300 image to the output path in the resulting
    file system, and printed exactly the two confirmation lines; afterwards
    the file reads back as that PNG and its parent is a directory. *)
Theorem success_means_file_written (env : Env) (argv : list string) (fs : FS) :
  exit_status (run env argv fs).1 = 0 ->
  exists script_name p fs1 im,
    argv = [script_name; p]
    /\ makedirs (dirname p) fs = inr fs1
    /\ write_file p (PNG im) fs1 = inr (w_fs (run env argv fs).2)
    /\ img_size im = (540, 300)
    /\ w_image (run env argv fs).2 = Some im
    /\ w_stdout (run env argv fs).2
       = [created_prefix +:+ p; done_prefix +:+ p]
    /\ read_file p (w_fs (run env argv fs).2) = Some (PNG im)
    /\ path_isdir (dirname p) (w_fs (run env argv fs).2) = true.
Proof.
  destruct (run_cases env argv fs)
    as [(e & -> & [-> | ->]) | [[_ ->] | (s & p & -> & ->)]]; [done..|].
  rewrite main_run. cbn [initial_world w_fs w_stdout].
  destruct (makedirs (dirname p) fs) as [e|fs1] eqn:Hmk.
  { apply makedirs_error in Hmk. by destruct e. }
  cbn zeta.
  destruct (write_file p _ fs1) as [e|fs2] eqn:Hw.
  { apply write_file_error in Hw. by destruct e. }
  intros _. exists s, p, fs1, (canvas env fs1 540 300). cbn [fst snd w_fs].
  destruct (rfind sep p) as [k|] eqn:Hr.
  - destruct (write_file_parent_isdir _ _ _ _ k Hr Hw) as [_ Hd].
    split_and!; try done. by apply write_file_read in Hw.
  - rewrite (dirname_no_sep _ Hr), makedirs_empty in Hmk. done.
Qed.

Lemma success_means_file_written_witness :
  exists script_name p fs1 im,
    ["create_background.py"; "build/dmg/bg.png"] = [script_name; p]
    /\ makedirs (dirname p) fs_home = inr fs1
    /\ write_file p (PNG im) fs1
       = inr (w_fs (run env_plain ["create_background.py"; "build/dmg/bg.png"]
                      fs_home).2)
    /\ img_size im = (540, 300).
Proof.
  destruct (success_means_file_written env_plain
              ["create_background.py"; "build/dmg/bg.png"] fs_home)
    as (s & p & fs1 & im & H1 & H2 & H3 & H4 & _); [vm_compute; reflexivity|].
  exists s, p, fs1, im. split_and!; [exact H1 | exact H2 | exact H3 | exact H4].
Defined.

(** Extra X3.  For a portable output path: when the parent directory could
    be created but the output path cannot be opened for writing,
    [image.save] raises an [OSError] after the whole image was drawn - the
    image holds the 300 gradient lines and the 29 later calls, the last one
    being the version label -; the run ends with status 1, prints no
    confirmation, and the directories [makedirs] created stay in place. *)
Theorem save_failure_after_makedirs (env : Env)
    (script_name output_path : string) (fs fs1 : FS) :
  imports_available env = true ->
  portable_path output_path = true ->
  makedirs (dirname output_path) fs = inr fs1 ->
  writable output_path fs1 = false ->
  exists e,
    run env [script_name; output_path] fs
    = (Raise e, mkWorld fs1 [] (Some (canvas env fs1 540 300)))
    /\ is_OSError e = true
    /\ List.length (img_ops (canvas env fs1 540 300)) = 329%nat
    /\ last (img_ops (canvas env fs1 540 300))
       = Some (Text (480, 275) version_text (180, 180, 180)
                 (selected_fonts env fs1).2)
    /\ exit_status (run env [script_name; output_path] fs).1 = 1.
Proof.
  intros Himp _ Hmk Hw.
  destruct (writable_false_write_file output_path
              (PNG (canvas env fs1 540 300)) fs1 Hw) as [e Hwrite].
  exists e.
  assert (run env [script_name; output_path] fs
          = (Raise e, mkWorld fs1 [] (Some (canvas env fs1 540 300)))) as ->.
  { unfold run, script, bind. rewrite import_guard_ok by done.
    rewrite main_run. cbn [initial_world w_fs w_stdout].
    by rewrite Hmk, Hwrite. }
  apply write_file_error in Hwrite. split_and!; [done | done | | |].
  - unfold canvas, overlay. cbn [img_ops].
    by rewrite !length_app, !length_map, !py_range_length.
  - unfold canvas, overlay. cbn [img_ops].
    by rewrite !app_assoc, last_snoc.
  - by destruct e.
Qed.

Lemma save_failure_after_makedirs_witness :
  exists e,
    run env_plain ["create_background.py"; "build/dmg/"] fs_home
    = (Raise e,
       mkWorld (mkFS ["home"]
                  (<[ ["home"; "build"; "dmg"] := Dir ]>
                   (<[ ["home"; "build"] := Dir ]>
                    (<[ ["home"] := Dir ]> ∅))))
         []
         (Some (canvas env_plain
                  (mkFS ["home"]
                     (<[ ["home"; "build"; "dmg"] := Dir ]>
                      (<[ ["home"; "build"] := Dir ]>
                       (<[ ["home"] := Dir ]> ∅))))
                  540 300)))
    /\ is_OSError e = true.
Proof.
  destruct (save_failure_after_makedirs env_plain "create_background.py"
              "build/dmg/" fs_home
              (mkFS ["home"]
                 (<[ ["home"; "build"; "dmg"] := Dir ]>
                  (<[ ["home"; "build"] := Dir ]>
                   (<[ ["home"] := Dir ]> ∅)))))
    as (e & Hrun & He & _).
  - reflexivity.
  - vm_compute; reflexivity.
  - vm_compute; reflexivity.
  - vm_compute; reflexivity.
  - exists e. split; [exact Hrun | exact He].
Defined.

(** Extra X4.  For a portable output path (so that the recursion of
    [os.makedirs] stays far below the interpreter's limit): when
    [os.makedirs] of the parent directory raises, the exception is an
    [OSError] that ends the run with status 1 before
    [create_dmg_background] is called: nothing is printed and no image is
    allocated. *)
Theorem makedirs_failure_aborts (env : Env) (script_name output_path : string)
    (fs : FS) (e : exn) :
  imports_available env = true ->
  portable_path output_path = true ->
  makedirs (dirname output_path) fs = inl e ->
  (run env [script_name; output_path] fs).1 = Raise e
  /\ is_OSError e = true
  /\ exit_status (run env [script_name; output_path] fs).1 = 1
  /\ w_stdout (run env [script_name; output_path] fs).2 = []
  /\ w_image (run env [script_name; output_path] fs).2 = None.
Proof.
  intros Himp _ Hmk.
  assert (run env [script_name; output_path] fs
          = (Raise e, initial_world fs)) as ->.
  { unfold run, script, bind. rewrite import_guard_ok by done.
    rewrite main_run. cbn [initial_world w_fs w_stdout]. by rewrite Hmk. }
  apply makedirs_error in Hmk. split_and!; try done. by destruct e.
Qed.

Lemma makedirs_failure_aborts_witness :
  (run env_plain ["create_background.py"; "notes/sub/bg.png"] fs_notes).1
  = Raise NotADirectoryError.
Proof.
  apply (makedirs_failure_aborts env_plain "create_background.py"
           "notes/sub/bg.png" fs_notes NotADirectoryError);
    [reflexivity | vm_compute; reflexivity | vm_compute; reflexivity].
Defined.

Lemma probe_fonts_invariant env fs out im paths fonts r w' :
  (forall q, In q paths -> In q font_paths) ->
  fonts = (None, None) \/ (single_file_handles env fs fonts /\ fonts.2 = None) ->
  probe_fonts env paths fonts (mkWorld fs out im) = (Ret r, w') ->
  r = (None, None) \/ single_file_handles env fs r.
Proof.
  revert fonts. induction paths as [|p rest IH]; intros fonts Hin Hfonts.
  { cbn [probe_fonts]. unfold ret. intros [= <- _].
    destruct Hfonts as [-> | [H _]]; auto. }
  assert (In p font_paths) as Hp by (apply Hin; by left).
  assert (forall q, In q rest -> In q font_paths) as Hrest
    by (intros q Hq; apply Hin; by right).
  cbn [probe_fonts]. unfold bind, os_path_exists, truetype. cbn [w_fs].
  destruct (path_exists p fs) eqn:Hex; [|by apply IH].
  destruct (font_load env p 24) eqn:H24; cbn; [|by apply IH|done].
  destruct (font_load env p 14) eqn:H14; cbn; [| |done].
  - intros [= <- _]. right. exists p. cbn. split_and!; auto.
  - apply IH; [done|]. right. split; [|by destruct Hfonts as [-> | [_ ->]]].
    exists p. cbn. split_and!; auto. left.
    by destruct Hfonts as [-> | [_ ->]].
Qed.

(** Extra X8.  Font resolution never leaves the title handle unbound,
    and it never mixes two font files: either both handles are the default
    font, or the title handle is a candidate file that exists and loads at
    size 24 and the instruction handle is the same file at size 14 or was
    never bound. *)
Theorem resolved_handles_invariant (env : Env) (fs : FS) :
  selected_fonts env fs = default_fonts
  \/ single_file_handles env fs (selected_fonts env fs).
Proof.
  unfold selected_fonts, resolve_fonts, try_except, bind.
  generalize (probe_fonts_invariant env fs [] None font_paths (None, None)).
  generalize (probe_fonts_raises env font_paths (None, None) (initial_world fs)).
  unfold initial_world.
  generalize (probe_fonts env font_paths (None, None)) as probe.
  intros probe Hraise Hinv.
  destruct (probe (mkWorld fs [] None)) as [[[[tf|] inf]|e] w'] eqn:Hp;
    cbn [fst snd].
  - destruct (Hinv (Some tf, inf) w') as [[=] | H]; auto.
  - by left.
  - rewrite (Hraise e w' eq_refl). by left.
Qed.

Lemma probe_fonts_fs_ext env paths fonts wA wB :
  (forall q, In q paths -> path_exists q (w_fs wA) = path_exists q (w_fs wB)) ->
  (probe_fonts env paths fonts wA).1 = (probe_fonts env paths fonts wB).1.
Proof.
  revert fonts. induction paths as [|p rest IH]; intros fonts Hex; [done|].
  assert (forall q, In q rest ->
            path_exists q (w_fs wA) = path_exists q (w_fs wB)) as Hrest
    by (intros q Hq; apply Hex; by right).
  cbn [probe_fonts]. unfold bind, os_path_exists, truetype.
  rewrite (Hex p) by (by left).
  destruct (path_exists p (w_fs wB)); [|by apply IH].
  destruct (font_load env p 24); cbn; [|by apply IH|done].
  destruct (font_load env p 14); cbn; [done|by apply IH|done].
Qed.

(** The font handles depend on the file system only through
    [os.path.exists] of the candidate paths. *)
Lemma selected_fonts_fs_ext (env : Env) (fsA fsB : FS) :
  (forall q, In q font_paths -> path_exists q fsA = path_exists q fsB) ->
  selected_fonts env fsA = selected_fonts env fsB.
Proof.
  intros Hex. unfold selected_fonts, resolve_fonts, try_except, bind.
  generalize (probe_fonts_fs_ext env font_paths (None, None)
                (initial_world fsA) (initial_world fsB) Hex).
  generalize (probe_fonts_reads_fs env font_paths (None, None)
                (initial_world fsA)).
  generalize (probe_fonts_reads_fs env font_paths (None, None)
                (initial_world fsB)).
  generalize (probe_fonts env font_paths (None, None)) as probe.
  intros probe HB HA Heq. rewrite HA, HB. cbn [w_fs initial_world fst] in *.
  fold (initial_world fsA). fold (initial_world fsB). rewrite Heq.
  by destruct (probe (initial_world fsB)).1 as [[[tf|] inf]|e];
    cbn; try destruct (is_Exception e).
Qed.

Lemma write_file_again p data fs fs' :
  write_file p data fs = inr fs' -> write_file p data fs' = inr fs'.
Proof.
  intros Hw.
  destruct (write_file_inr _ _ _ _ Hw) as (c & Hl & Hend & Hc & ->).
  unfold write_file, lookup_path in *. cbn [cwd nodes].
  destruct (is_empty p); [done|].
  rewrite (walk_insert_file fs c data _ _ c Hc Hl), Hend.
  destruct c as [|x c]; [by destruct Hc|]. cbn [node_at nodes].
  rewrite lookup_insert_eq. by rewrite insert_insert_eq.
Qed.

Lemma canvas_fs_ext env fsA fsB width height :
  (forall q, In q font_paths -> path_exists q fsA = path_exists q fsB) ->
  canvas env fsA width height = canvas env fsB width height.
Proof.
  intros Hex. unfold canvas.
  by rewrite (selected_fonts_fs_ext env fsA fsB Hex).
Qed.

(** Extra X6.  For a portable output path that does not resolve to the
    place of a candidate font file: running the script again with the same
    arguments on the file system a successful run left gives the same
    outcome, output lines and image, and leaves the file system as it
    is. *)
Theorem rerun_is_idempotent (env : Env) (script_name output_path : string)
    (fs fs1 : FS) (w1 : world) :
  imports_available env = true ->
  portable_path output_path = true ->
  makedirs (dirname output_path) fs = inr fs1 ->
  run env [script_name; output_path] fs = (Ret tt, w1) ->
  (forall q, In q font_paths ->
     lookup_path q fs1 <> lookup_path output_path fs1) ->
  run env [script_name; output_path] (w_fs w1) = (Ret tt, w1).
Proof.
  intros Himp _ Hmk Hrun Hfonts. unfold run, script, bind in *.
  rewrite import_guard_ok in * by done. rewrite main_run in *.
  cbn [initial_world w_fs w_stdout] in *. rewrite Hmk in Hrun. cbn zeta in Hrun.
  destruct (write_file output_path _ fs1) as [e|fs2] eqn:Hw; [done|].
  injection Hrun as <-. cbn [w_fs] in *.
  destruct (rfind sep output_path) as [k|] eqn:Hr.
  2:{ by rewrite (dirname_no_sep _ Hr), makedirs_empty in Hmk. }
  destruct (write_file_parent_isdir _ _ _ _ k Hr Hw) as [_ Hd2].
  rewrite (makedirs_existing _ _ Hd2). cbn zeta.
  assert (forall q, In q font_paths ->
            path_exists q fs2 = path_exists q fs1) as Hex.
  { intros q Hq.
    destruct (write_file_inr _ _ _ _ Hw) as (c & Hl & _ & Hc & ->).
    apply path_exists_insert_file; [done|].
    rewrite <- Hl. by apply Hfonts. }
  rewrite (canvas_fs_ext env fs2 fs1 540 300 Hex).
  by rewrite (write_file_again _ _ _ _ Hw).
Qed.

Lemma rerun_is_idempotent_witness :
  exists w1,
    run env_plain ["create_background.py"; "build/dmg/bg.png"] fs_fonts
    = (Ret tt, w1)
    /\ run env_plain ["create_background.py"; "build/dmg/bg.png"] (w_fs w1)
       = (Ret tt, w1).
Proof.
  eexists. split; [vm_compute; reflexivity|].
  match goal with
  | |- run _ _ (w_fs ?w) = _ =>
      apply (rerun_is_idempotent env_plain "create_background.py"
               "build/dmg/bg.png" fs_fonts
               (mkFS ["home"]
                  (<[ ["home"; "build"; "dmg"] := Dir ]>
                   (<[ ["home"; "build"] := Dir ]> (nodes fs_fonts)))) w)
  end.
  - reflexivity.
  - vm_compute; reflexivity.
  - vm_compute; reflexivity.
  - vm_compute; reflexivity.
  - intros q Hq. simpl in Hq.
    destruct Hq as [<- | [<- | [<- | []]]]; vm_compute; discriminate.
Defined.

(** Extra X5.  When the parent directory already exists, [exist_ok=True]
    makes [os.makedirs] a no-op: the run succeeds and the resulting file
    system is the initial one with the output file written. *)
Theorem existing_parent_is_kept (env : Env) (script_name output_path : string)
    (fs : FS) :
  imports_available env = true ->
  path_isdir (dirname output_path) fs = true ->
  writable output_path fs = true ->
  exists fs2 im,
    run env [script_name; output_path] fs
    = (Ret tt,
       mkWorld fs2
         [created_prefix +:+ output_path; done_prefix +:+ output_path]
         (Some im))
    /\ write_file output_path (PNG im) fs = inr fs2.
Proof.
  intros Himp Hdir Hw.
  destruct (writable_write_file output_path
              (PNG (canvas env fs 540 300)) fs Hw) as [fs2 Hwrite].
  exists fs2, (canvas env fs 540 300). split; [|done].
  unfold run, script, bind. rewrite import_guard_ok by done.
  rewrite main_run. cbn [initial_world w_fs w_stdout].
  by rewrite (makedirs_existing _ _ Hdir), Hwrite.
Qed.

Lemma existing_parent_is_kept_witness :
  exists fs2 im,
    run env_plain ["create_background.py"; "/home/bg.png"] fs_home
    = (Ret tt,
       mkWorld fs2
         [created_prefix +:+ "/home/bg.png"; done_prefix +:+ "/home/bg.png"]
         (Some im))
    /\ write_file "/home/bg.png" (PNG im) fs_home = inr fs2.
Proof.
  apply (existing_parent_is_kept env_plain "create_background.py"
           "/home/bg.png" fs_home); vm_compute; reflexivity.
Defined.

Lemma mkdir_keeps d fs fs' c n :
  mkdir d fs = inr fs' -> nodes fs !! c = Some n ->
  cwd fs' = cwd fs /\ nodes fs' !! c = Some n.
Proof.
  unfold mkdir. destruct (lookup_path d fs) as [e|c0]; [done|].
  destruct (node_at fs c0) as [x|] eqn:Hn; [done|].
  intros [= <-] Hc. split; [done|]. cbn [nodes].
  rewrite lookup_insert_ne; [done|]. intros ->.
  destruct c as [|a c]; [done|]. cbn [node_at] in Hn. congruence.
Qed.

Lemma mkdir_exist_ok_keeps d fs fs' c n :
  mkdir_exist_ok d fs = inr fs' -> nodes fs !! c = Some n ->
  cwd fs' = cwd fs /\ nodes fs' !! c = Some n.
Proof.
  unfold mkdir_exist_ok. destruct (mkdir d fs) as [e|fs0] eqn:Hm.
  - destruct (is_OSError e); [|done].
    destruct (path_isdir d fs); [|done]. by intros [= <-].
  - intros [= <-]. by apply (mkdir_keeps d fs).
Qed.

Lemma makedirs_fuel_keeps fuel d fs fs' c n :
  makedirs_fuel fuel d fs = inr fs' -> nodes fs !! c = Some n ->
  cwd fs' = cwd fs /\ nodes fs' !! c = Some n.
Proof.
  revert d fs fs'. induction fuel as [|fuel IH]; intros d fs fs'; [done|].
  cbn [makedirs_fuel].
  destruct (path_split d) as [head tail].
  destruct (if is_empty tail then path_split head else (head, tail))
    as [head' tail'].
  destruct (negb (is_empty head') && negb (is_empty tail')
            && negb (path_exists head' fs));
    [|apply mkdir_exist_ok_keeps].
  destruct (makedirs_fuel fuel head' fs) as [e|fs0] eqn:Hrec.
  - destruct (is_FileExistsError e); [|done].
    destruct (String.eqb tail' ".");
      [by intros [= <-] | apply mkdir_exist_ok_keeps].
  - intros Hm Hc. destruct (IH _ _ _ Hrec Hc) as [Hcwd Hc0].
    destruct (String.eqb tail' "."); [by injection Hm as <-|].
    destruct (mkdir_exist_ok_keeps _ _ _ _ _ Hm Hc0) as [Hcwd' Hc'].
    split; [congruence | done].
Qed.

(** Extra X7.  A run never changes the working directory and never
    removes or alters a node of the file system, except that it may replace
    the regular file the output path names. *)
Theorem run_keeps_other_files (env : Env) (argv : list string) (fs : FS)
    (c : list string) (n : node) :
  nodes fs !! c = Some n ->
  cwd (w_fs (run env argv fs).2) = cwd fs
  /\ (nodes (w_fs (run env argv fs).2) !! c = Some n
      \/ exists script_name p fs1 d,
           argv = [script_name; p] /\ n = File d
           /\ makedirs (dirname p) fs = inr fs1
           /\ lookup_path p fs1 = inr c).
Proof.
  intros Hc.
  destruct (run_cases env argv fs)
    as [(e & -> & _) | [[_ ->] | (s & p & -> & ->)]]; [auto..|].
  rewrite main_run. cbn [initial_world w_fs w_stdout].
  destruct (makedirs (dirname p) fs) as [e|fs1] eqn:Hmk; [auto|].
  destruct (makedirs_fuel_keeps _ _ _ _ _ _ Hmk Hc) as [Hcwd Hc1].
  cbn zeta. destruct (write_file p _ fs1) as [e|fs2] eqn:Hw; [auto|].
  destruct (write_file_inr _ _ _ _ Hw) as (c0 & Hl & _ & Hnd & ->).
  cbn [snd w_fs cwd nodes]. split; [done|].
  destruct (decide (c0 = c)) as [->|Hne].
  - right. destruct n as [|d].
    + destruct c as [|a c]; [done|]. cbn [node_at] in Hnd. congruence.
    + by exists s, p, fs1, d.
  - left. by rewrite lookup_insert_ne.
Qed.

Lemma run_keeps_other_files_witness :
  nodes (w_fs (run env_plain ["create_background.py"; "out/bg.png"]
                 fs_notes).2) !! ["home"; "notes"]
  = Some (File Blob).
Proof.
  destruct (run_keeps_other_files env_plain
              ["create_background.py"; "out/bg.png"] fs_notes
              ["home"; "notes"] (File Blob)) as [_ [H | H]].
  - vm_compute; reflexivity.
  - exact H.
  - destruct H as (s & p & fs1 & d & [= <- <-] & _ & Hmk & Hl).
    vm_compute in Hmk. injection Hmk as <-. vm_compute in Hl. discriminate Hl.
Defined.

Lemma drawn_on_canvas env output_path width height w :
  drawn_on env output_path width height w
  = img_ops (canvas env (w_fs w) width height).
Proof.
  unfold drawn_on. rewrite create_dmg_background_run. cbn zeta.
  by destruct (write_file _ _ _).
Qed.

(** The gradient value stays between 240 and 254 on every scanline. *)
Lemma gradient_value_range (height y : Z) :
  0 <= y < height -> 240 <= gradient_value y height <= 254.
Proof.
  intros Hy. destruct height as [|d|d]; [lia| |lia].
  rewrite gradient_value_floor by lia.
  assert (0 <= 15 * y / Z.pos d <= 14); [|lia].
  split; [apply Z.div_pos; lia|].
  apply Z.lt_succ_r, Z.div_lt_upper_bound; lia.
Qed.

(** Extra X10.  On a canvas of any positive height, with the quotient
    [15 * y / height] evaluated exactly, the gradient value of every
    scanline lies in [240, 254] (it never reaches 255), it is 240 on the
    first scanline, it does not decrease with [y], and the last scanline
    differs from the first exactly when the height is at least 2. *)
Theorem gradient_on_any_height (height y : Z) :
  0 <= y < height ->
  240 <= gradient_value y height <= 254
  /\ gradient_value 0 height = 240
  /\ (forall y', y <= y' < height ->
        gradient_value y height <= gradient_value y' height)
  /\ (gradient_value (height - 1) height <> gradient_value 0 height
      <-> 2 <= height).
Proof.
  intros Hy. destruct height as [|d|d]; [lia| |lia].
  assert (forall z, 0 <= z < Z.pos d -> 0 <= 15 * z / Z.pos d <= 14) as Hq.
  { intros z Hz. split; [apply Z.div_pos; lia|].
    apply Z.lt_succ_r, Z.div_lt_upper_bound; lia. }
  split; [|split; [|split]].
  - rewrite gradient_value_floor by lia. specialize (Hq y Hy). lia.
  - rewrite gradient_value_floor by lia. reflexivity.
  - intros y' Hy'. rewrite !gradient_value_floor by lia.
    apply Z.add_le_mono_l, Z.div_le_mono; lia.
  - rewrite !gradient_value_floor by lia.
    change (15 * 0 / Z.pos d) with 0. split.
    + intros Hne. destruct (decide (Z.pos d = 1)) as [Hd|Hd]; [|lia].
      rewrite Hd in Hne. done.
    + intros Hd Heq.
      assert (1 <= 15 * (Z.pos d - 1) / Z.pos d); [|lia].
      apply Z.div_le_lower_bound; lia.
Qed.

Lemma gradient_on_any_height_witness :
  240 <= gradient_value 7 8 <= 254.
Proof.
  destruct (gradient_on_any_height 8 7 ltac:(lia)) as [H _]. exact H.
Defined.

(** Extra X11.  On a canvas of any positive height, every [fill] passed
    to a drawing call has its three channels in [0, 255]. *)
Theorem fills_are_valid_rgb (env : Env) (output_path : string)
    (width height : Z) (w : world) :
  0 < height ->
  Forall (fun op => valid_rgb (fill_of op))
    (drawn_on env output_path width height w).
Proof.
  intros Hh. rewrite drawn_on_canvas. cbn [canvas img_ops].
  apply Forall_app. split.
  - apply List.Forall_forall. intros op (y & <- & Hy)%in_map_iff.
    apply py_range_bounds in Hy.
    pose proof (gradient_value_range height y Hy) as Hg.
    unfold gradient_line. cbn [fill_of valid_rgb]. lia.
  - unfold overlay. apply Forall_app. split; [|apply Forall_app; split].
    + repeat (apply List.Forall_cons; [cbn; lia|]). apply List.Forall_nil.
    + apply List.Forall_forall. intros op (i & <- & _)%in_map_iff. cbn. lia.
    + repeat (apply List.Forall_cons; [cbn; lia|]). apply List.Forall_nil.
Qed.

Lemma fills_are_valid_rgb_witness :
  Forall (fun op => valid_rgb (fill_of op))
    (drawn_on env_plain "bg.png" 64 48 (initial_world fs_home)).
Proof.
  apply (fills_are_valid_rgb env_plain "bg.png" 64 48 (initial_world fs_home)).
  lia.
Defined.

Lemma centered_origin (width text_width : Z) :
  let x := (width - text_width) / 2 in
  (0 <= x <-> text_width <= width)
  /\ (text_width <= width -> x + text_width <= width)
  /\ 0 <= (width - (x + text_width)) - x <= 1.
Proof.
  intros x. subst x.
  pose proof (Z.div_mod (width - text_width) 2 ltac:(lia)) as Hdm.
  pose proof (Z.mod_pos_bound (width - text_width) 2 ltac:(lia)) as Hm.
  lia.
Qed.

(** Extra X12.  On a canvas of any width, the title and the instruction
    text (the two calls after the gradient) start inside the canvas
    exactly when their measured width is at most the canvas width; then
    their right edge is inside too; in all cases the right margin exceeds
    the left margin by 0 or 1 pixel. *)
Theorem centered_text_fits (env : Env) (output_path : string)
    (width height : Z) (w : world) :
  0 <= height ->
  let fonts := selected_fonts env (w_fs w) in
  let title_width := bbox_width (text_bbox env fonts.1 title_text) in
  let instruction_width :=
    bbox_width (text_bbox env fonts.2 instruction_text) in
  exists title_x instruction_x,
    nth_error (drawn_on env output_path width height w) (Z.to_nat height)
    = Some (Text (title_x, 30) title_text (70, 130, 180) fonts.1)
    /\ nth_error (drawn_on env output_path width height w)
         (S (Z.to_nat height))
       = Some (Text (instruction_x, 65) instruction_text (80, 80, 80) fonts.2)
    /\ (0 <= title_x <-> title_width <= width)
    /\ (title_width <= width -> title_x + title_width <= width)
    /\ 0 <= (width - (title_x + title_width)) - title_x <= 1
    /\ (0 <= instruction_x <-> instruction_width <= width)
    /\ (instruction_width <= width ->
        instruction_x + instruction_width <= width)
    /\ 0 <= (width - (instruction_x + instruction_width)) - instruction_x <= 1.
Proof.
  intros Hh fonts title_width instruction_width.
  exists ((width - title_width) / 2), ((width - instruction_width) / 2).
  destruct (centered_origin width title_width) as (Ht1 & Ht2 & Ht3).
  destruct (centered_origin width instruction_width) as (Hi1 & Hi2 & Hi3).
  rewrite drawn_on_canvas. cbn [canvas img_ops].
  rewrite !nth_error_app2 by (rewrite length_map, py_range_length; lia).
  rewrite length_map, py_range_length.
  replace (S (Z.to_nat height) - Z.to_nat height)%nat with 1%nat by lia.
  rewrite Nat.sub_diag.
  split; [reflexivity|]. split; [reflexivity|]. tauto.
Qed.

Lemma centered_text_fits_witness :
  exists title_x,
    nth_error (drawn_on env_plain "bg.png" 100 40 (initial_world fs_home)) 40
    = Some (Text (title_x, 30) title_text (70, 130, 180)
              (selected_fonts env_plain fs_home).1)
    /\ title_x < 0.
Proof.
  destruct (centered_text_fits env_plain "bg.png" 100 40
              (initial_world fs_home) ltac:(lia)) as (x & _ & Hx & _ & Hfit & _).
  exists x. split; [exact Hx|].
  destruct (Z.lt_ge_cases x 0) as [Hlt|Hge]; [exact Hlt|].
  apply Hfit in Hge. vm_compute in Hge. by destruct Hge.
Defined.

(** Extra X13.  When both measured text widths lie in [0, width], the
    coordinates of all calls after the gradient lie in
    [0, width) x [0, height) exactly when the canvas is at least
    371 x 226. *)
Theorem overlay_fits_iff (env : Env) (output_path : string)
    (width height : Z) (w : world) :
  0 <= height ->
  let fonts := selected_fonts env (w_fs w) in
  0 <= bbox_width (text_bbox env fonts.1 title_text) <= width ->
  0 <= bbox_width (text_bbox env fonts.2 instruction_text) <= width ->
  Forall (fun op => Forall (in_canvas width height) (coords op))
    (skipn (Z.to_nat height) (drawn_on env output_path width height w))
  <-> 371 <= width /\ 226 <= height.
Proof.
  intros Hh fonts Htitle Hinstr. rewrite drawn_on_canvas. cbn [canvas img_ops].
  rewrite skipn_app, skipn_all2 by (rewrite length_map, py_range_length; lia).
  rewrite length_map, py_range_length, Nat.sub_diag. cbn [skipn app].
  fold fonts. unfold overlay. split.
  - intros H. apply Forall_app in H as [H _].
    do 3 apply Forall_cons in H as [_ H]. apply Forall_cons in H as [Htip H].
    apply Forall_cons in H as [Hbody _].
    cbn [coords] in Htip, Hbody.
    apply Forall_cons in Htip as [[Htip _] _].
    apply Forall_cons in Hbody as [_ Hbody].
    apply Forall_cons in Hbody as [[_ Hbody] _].
    cbn [fst snd] in *. lia.
  - intros [Hwd Hht]. apply Forall_app. split; [|apply Forall_app; split].
    + assert (0 <= (width - bbox_width (text_bbox env fonts.1 title_text)) / 2
              < width) as Ht
        by (split; [apply Z.div_pos | apply Z.div_lt_upper_bound]; lia).
      assert (0 <= (width - bbox_width (text_bbox env fonts.2 instruction_text)) / 2
              < width) as Hi
        by (split; [apply Z.div_pos | apply Z.div_lt_upper_bound]; lia).
      each_point; unfold in_canvas; cbn [fst snd]; lia.
    + apply List.Forall_forall. intros op (i & <- & Hi)%in_map_iff.
      apply py_range_bounds in Hi. pose proof (tail_y_bounds i Hi).
      unfold tail_ellipse. each_point; unfold in_canvas; cbn [fst snd]; lia.
    + each_point. unfold in_canvas. cbn [fst snd]. lia.
Qed.

Lemma overlay_fits_iff_witness :
  ~ Forall (fun op => Forall (in_canvas 540 200) (coords op))
      (skipn 200 (drawn_on env_plain "bg.png" 540 200 (initial_world fs_home))).
Proof.
  intros H.
  apply (overlay_fits_iff env_plain "bg.png" 540 200 (initial_world fs_home))
    in H; [lia | lia | vm_compute; split; discriminate..].
Defined.

(** Extra X14.  Consecutive tail ellipses overlap: each is a 4 x 8 box,
    the next one starts one pixel to the right and zero or one pixel
    lower. *)
Theorem tail_is_connected (env : Env) (output_path : string) (w : world)
    (i : Z) :
  0 <= i < 19 ->
  exists x y x' y',
    nth_error (drawn env output_path w) (308 + Z.to_nat i)
    = Some (Ellipse (x, y, x + 4, y + 8) (200, 200, 200))
    /\ nth_error (drawn env output_path w) (309 + Z.to_nat i)
       = Some (Ellipse (x', y', x' + 4, y' + 8) (200, 200, 200))
    /\ x' = x + 1
    /\ y <= y' <= y + 1.
Proof.
  intros Hi.
  assert (forall j, 0 <= j < 20 ->
            nth_error (drawn env output_path w) (308 + Z.to_nat j)
            = Some (tail_ellipse j)) as Hnth.
  { intros j Hj. rewrite drawn_canvas. cbn [canvas img_ops].
    rewrite nth_error_app2 by (rewrite length_map, py_range_length; lia).
    rewrite length_map, py_range_length. unfold overlay.
    replace (308 + Z.to_nat j - Z.to_nat 300)%nat with (8 + Z.to_nat j)%nat
      by lia.
    cbn [app nth_error Nat.add].
    rewrite nth_error_app1 by (rewrite length_map, py_range_length; lia).
    erewrite map_nth_error; [|apply py_range_nth; lia].
    by rewrite Z2Nat.id by lia. }
  exists (45 + i), (tail_y 200 i), (45 + (i + 1)), (tail_y 200 (i + 1)).
  split; [|split; [|split; [|split]]].
  - by rewrite Hnth by lia.
  - replace (309 + Z.to_nat i)%nat with (308 + Z.to_nat (i + 1))%nat by lia.
    by rewrite Hnth by lia.
  - lia.
  - rewrite !tail_y_floor by lia.
    assert (i * i / 80 <= (i + 1) * (i + 1) / 80)
      by (apply Z.div_le_mono; nia).
    pose proof (Z.div_mod (i * i) 80 ltac:(lia)).
    pose proof (Z.mod_pos_bound (i * i) 80 ltac:(lia)).
    pose proof (Z.div_mod ((i + 1) * (i + 1)) 80 ltac:(lia)).
    pose proof (Z.mod_pos_bound ((i + 1) * (i + 1)) 80 ltac:(lia)).
    nia.
  - rewrite !tail_y_floor by lia.
    pose proof (Z.div_mod (i * i) 80 ltac:(lia)).
    pose proof (Z.mod_pos_bound (i * i) 80 ltac:(lia)).
    pose proof (Z.div_mod ((i + 1) * (i + 1)) 80 ltac:(lia)).
    pose proof (Z.mod_pos_bound ((i + 1) * (i + 1)) 80 ltac:(lia)).
    nia.
Qed.

Lemma tail_is_connected_witness :
  exists x y x' y',
    nth_error (drawn env_plain "bg.png" (initial_world fs_home)) 316
    = Some (Ellipse (x, y, x + 4, y + 8) (200, 200, 200))
    /\ nth_error (drawn env_plain "bg.png" (initial_world fs_home)) 317
       = Some (Ellipse (x', y', x' + 4, y' + 8) (200, 200, 200))
    /\ x' = x + 1
    /\ y <= y' <= y + 1.
Proof.
  exact (tail_is_connected env_plain "bg.png" (initial_world fs_home) 8
           ltac:(lia)).
Defined.
